(** * ssrf-canary: the request-capture pipeline of [app.py]

    A shallow embedding of the canary handler of [src/app.py] and of the
    parts of the Python runtime it calls into ([str.split], [str.strip],
    [bytes.decode('utf-8', 'replace')], the [ipaddress] module), followed by
    the properties of the pipeline.

    Conventions.
    - A Python [str] that comes from the HTTP layer (header values, the peer
      address) is a [string]: WSGI hands header text over decoded as
      Latin-1, so every character is a code point below 256.
    - Decoded body text can hold any Unicode scalar value and is a list of
      code points ([list N]).
    - [time.time()] is a rational number of seconds ([Q]); every finite
      double is one, and the only arithmetic done on it, [now - WINDOW],
      is exact for clock readings.
    - A Python exception (an instance of [Exception]) is a value of [exn];
      code that can raise returns a [result], and
      [try ... except Exception] is [try_except]. *)

From stdpp Require Import base option list gmap strings.
From Stdlib Require Import ZArith QArith Lqa Lia List Sorted String Ascii Bool.
From Stdlib.Strings Require Import Byte.
Import ListNotations.

Local Open Scope string_scope.
Local Open Scope list_scope.
Local Open Scope Z_scope.

(* ================================================================== *)
(** ** Python string primitives *)

Module Py.

Definition ord (c : ascii) : Z := Z.of_N (N_of_ascii c).

Definition ascii_eqb (a b : ascii) : bool := Ascii.eqb a b.

(** [str.isspace] on one character, restricted to code points below 256:
    TAB..CR, FS..US, SPACE, NEL and NBSP. *)
Definition isspace (c : ascii) : bool :=
  let n := ord c in
  ((9 <=? n) && (n <=? 13)) || ((28 <=? n) && (n <=? 32))
  || (n =? 133) || (n =? 160).

(** [c in '0123456789'], that is [c.isascii() and c.isdigit()]. *)
Definition is_decimal_digit (c : ascii) : bool :=
  let n := ord c in (48 <=? n) && (n <=? 57).

Definition hex_value (c : ascii) : option Z :=
  let n := ord c in
  if (48 <=? n) && (n <=? 57) then Some (n - 48)
  else if (65 <=? n) && (n <=? 70) then Some (n - 55)
  else if (97 <=? n) && (n <=? 102) then Some (n - 87)
  else None.

Definition is_hex_digit (c : ascii) : bool :=
  match hex_value c with Some _ => true | None => false end.

Fixpoint chars (s : string) : list ascii :=
  match s with
  | EmptyString => []
  | String c r => c :: chars r
  end.

Definition is_empty (s : string) : bool :=
  match s with EmptyString => true | _ => false end.

(** [sep in s] for a one-character [sep]. *)
Definition contains (sep : ascii) (s : string) : bool :=
  existsb (ascii_eqb sep) (chars s).

(** [s.split(sep)] for a one-character separator: cut at every
    occurrence; the result always has at least one part. *)
Fixpoint split (sep : ascii) (s : string) : list string :=
  match s with
  | EmptyString => [EmptyString]
  | String c r =>
      if ascii_eqb c sep then EmptyString :: split sep r
      else match split sep r with
           | [] => [String c EmptyString]
           | h :: t => String c h :: t
           end
  end.

(** [s.partition(sep)]: the text before the first [sep], whether [sep]
    was found, and the text after it. *)
Fixpoint partition (sep : ascii) (s : string) : string * bool * string :=
  match s with
  | EmptyString => (EmptyString, false, EmptyString)
  | String c r =>
      if ascii_eqb c sep then (EmptyString, true, r)
      else let '(a, found, b) := partition sep r in (String c a, found, b)
  end.

Fixpoint lstrip (s : string) : string :=
  match s with
  | EmptyString => EmptyString
  | String c r => if isspace c then lstrip r else s
  end.

Fixpoint rstrip (s : string) : string :=
  match s with
  | EmptyString => EmptyString
  | String c r =>
      let r' := rstrip r in
      if is_empty r' && isspace c then EmptyString else String c r'
  end.

(** [s.strip()] *)
Definition strip (s : string) : string := rstrip (lstrip s).

(** [int(s, 10)] on a string already known to hold decimal digits only. *)
Definition int10 (s : string) : Z :=
  fold_left (fun acc c => 10 * acc + (ord c - 48)) (chars s) 0.

(** [int(s, 16)] on hexadecimal digits; [None] on the empty string or on
    any other character (Python raises [ValueError]). *)
Definition int16 (s : string) : option Z :=
  if is_empty s then None
  else fold_left
         (fun acc c =>
            match acc, hex_value c with
            | Some a, Some d => Some (16 * a + d)
            | _, _ => None
            end) (chars s) (Some 0).

Definition hex_digit (d : Z) : ascii :=
  ascii_of_N (Z.to_N (if d <? 10 then 48 + d else 87 + d)).

(** ['%x' % n] for [0 <= n < 65536]: lower-case hexadecimal without
    leading zeros. *)
Definition format_x (n : Z) : string :=
  let d3 := (n / 4096) mod 16 in
  let d2 := (n / 256) mod 16 in
  let d1 := (n / 16) mod 16 in
  let d0 := n mod 16 in
  if 0 <? d3 then
    String (hex_digit d3) (String (hex_digit d2)
      (String (hex_digit d1) (String (hex_digit d0) EmptyString)))
  else if 0 <? d2 then
    String (hex_digit d2) (String (hex_digit d1)
      (String (hex_digit d0) EmptyString))
  else if 0 <? d1 then
    String (hex_digit d1) (String (hex_digit d0) EmptyString)
  else String (hex_digit d0) EmptyString.

Definition str_len (s : string) : Z := Z.of_nat (String.length s).

(** [sep.join(parts)] for a one-character [sep]. *)
Fixpoint join (sep : ascii) (parts : list string) : string :=
  match parts with
  | [] => EmptyString
  | [p] => p
  | p :: rest => (p ++ String sep (join sep rest))%string
  end.

End Py.

(* ================================================================== *)
(** ** The [ipaddress] module, as far as [app.py] calls it *)

Module Ipaddress.

Definition IPV4LENGTH : Z := 32.
Definition IPV6LENGTH : Z := 128.

(** An [IPv4Address] or [IPv6Address] object: its version, the integer
    [_ip] and, for version 6, the optional [_scope_id]. *)
Inductive Address : Type :=
| IPv4Address_obj (ip : Z)
| IPv6Address_obj (ip : Z) (scope_id : option string).

Definition addr_version (a : Address) : Z :=
  match a with IPv4Address_obj _ => 4 | IPv6Address_obj _ _ => 6 end.

Definition addr_ip (a : Address) : Z :=
  match a with IPv4Address_obj n => n | IPv6Address_obj n _ => n end.

(** A network object: version, network address and netmask as integers. *)
Record Network : Type := mkNetwork {
  net_version : Z;
  network_address : Z;
  netmask : Z;
  prefixlen : Z
}.

(** [_BaseV4._parse_octet] *)
Definition v4_parse_octet (octet_str : string) : option Z :=
  if Py.is_empty octet_str then None
  else if negb (forallb Py.is_decimal_digit (Py.chars octet_str)) then None
  else if 3 <? Py.str_len octet_str then None
  else if negb (String.eqb octet_str "0")
          && match octet_str with
             | String c _ => Py.ascii_eqb c "0"%char
             | EmptyString => false
             end
  then None
  else let octet_int := Py.int10 octet_str in
       if 255 <? octet_int then None else Some octet_int.

(** [int.from_bytes(map(parse, octets), 'big')], failing as soon as one
    octet fails. *)
Fixpoint from_octets (acc : Z) (octets : list string) : option Z :=
  match octets with
  | [] => Some acc
  | o :: rest =>
      match v4_parse_octet o with
      | Some v => from_octets (256 * acc + v) rest
      | None => None
      end
  end.

(** [_BaseV4._ip_int_from_string] *)
Definition v4_ip_int_from_string (ip_str : string) : option Z :=
  if Py.is_empty ip_str then None
  else let octets := Py.split "."%char ip_str in
       if negb (Nat.eqb (List.length octets) 4) then None
       else from_octets 0 octets.

(** [IPv4Address(addr_str)._ip] for a string argument. *)
Definition IPv4Address (addr_str : string) : option Z :=
  if Py.contains "/"%char addr_str then None
  else v4_ip_int_from_string addr_str.

(** [_BaseV6._parse_hextet] *)
Definition v6_parse_hextet (hextet_str : string) : option Z :=
  if negb (forallb Py.is_hex_digit (Py.chars hextet_str)) then None
  else if 4 <? Py.str_len hextet_str then None
  else Py.int16 hextet_str.

(** The two loops [ip_int <<= 16; ip_int |= parse(parts[i])]. *)
Fixpoint parse_hextets (ip_int : Z) (parts : list string) : option Z :=
  match parts with
  | [] => Some ip_int
  | p :: rest =>
      match v6_parse_hextet p with
      | Some v => parse_hextets (Z.lor (Z.shiftl ip_int 16) v) rest
      | None => None
      end
  end.

(** The search for ['::']: indices [1 .. len(parts) - 2] whose part is
    empty.  [inl tt] is the error of a second ['::']. *)
Fixpoint find_skip (i : nat) (middle : list string) (skip_index : option nat)
  : unit + option nat :=
  match middle with
  | [] => inr skip_index
  | p :: rest =>
      if Py.is_empty p then
        match skip_index with
        | Some _ => inl tt
        | None => find_skip (S i) rest (Some i)
        end
      else find_skip (S i) rest skip_index
  end.

Definition last_part (parts : list string) : string :=
  List.last parts EmptyString.

Definition first_part (parts : list string) : string :=
  List.hd EmptyString parts.

(** First phase of [_BaseV6._ip_int_from_string]: a last part with a dot
    is an IPv4 suffix and is replaced by its two hextets. *)
Definition v6_expand_ipv4_suffix (parts : list string) : option (list string) :=
  if Py.contains "."%char (last_part parts) then
    match IPv4Address (last_part parts) with
    | None => None
    | Some ipv4_int =>
        Some (List.removelast parts
              ++ [Py.format_x (Z.land (Z.shiftr ipv4_int 16) 65535);
                  Py.format_x (Z.land ipv4_int 65535)])
    end
  else Some parts.

(** Second phase: the count of parts, the place of ['::'], and the two
    loops over the hextets before and after it. *)
Definition v6_parts_to_int (parts : list string) : option Z :=
  let n := List.length parts in
  if (9 <? n)%nat then None else
  match find_skip 1 (List.removelast (List.tl parts)) None with
  | inl _ => None
  | inr (Some skip_index) =>
      let parts_hi := skip_index in
      let parts_lo := (n - skip_index - 1)%nat in
      let hi_opt :=
        if Py.is_empty (first_part parts) then
          if negb (Nat.eqb (parts_hi - 1) 0) then None
          else Some (parts_hi - 1)%nat
        else Some parts_hi in
      let lo_opt :=
        if Py.is_empty (last_part parts) then
          if negb (Nat.eqb (parts_lo - 1) 0) then None
          else Some (parts_lo - 1)%nat
        else Some parts_lo in
      match hi_opt, lo_opt with
      | Some parts_hi, Some parts_lo =>
          let parts_skipped := 8 - Z.of_nat (parts_hi + parts_lo) in
          if parts_skipped <? 1 then None else
          match parse_hextets 0 (firstn parts_hi parts) with
          | None => None
          | Some hi =>
              parse_hextets (Z.shiftl hi (16 * parts_skipped))
                            (skipn (n - parts_lo) parts)
          end
      | _, _ => None
      end
  | inr None =>
      if negb (Nat.eqb n 8) then None
      else if Py.is_empty (first_part parts) then None
      else if Py.is_empty (last_part parts) then None
      else parse_hextets 0 parts
  end.

(** [_BaseV6._ip_int_from_string] *)
Definition v6_ip_int_from_string (ip_str : string) : option Z :=
  if Py.is_empty ip_str then None else
  let parts := Py.split ":"%char ip_str in
  if (List.length parts <? 3)%nat then None else
  match v6_expand_ipv4_suffix parts with
  | None => None
  | Some parts => v6_parts_to_int parts
  end.

(** [IPv6Address._split_scope_id] *)
Definition split_scope_id (ip_str : string) : option (string * option string) :=
  let '(addr, sep, scope_id) := Py.partition "%"%char ip_str in
  if negb sep then Some (addr, None)
  else if Py.is_empty scope_id || Py.contains "%"%char scope_id then None
  else Some (addr, Some scope_id).

(** [IPv6Address(addr_str)] for a string argument. *)
Definition IPv6Address (addr_str : string) : option (Z * option string) :=
  if Py.contains "/"%char addr_str then None
  else match split_scope_id addr_str with
       | None => None
       | Some (addr, scope) =>
           match v6_ip_int_from_string addr with
           | Some n => Some (n, scope)
           | None => None
           end
       end.

(** [ipaddress.ip_address]: version 4 first, then version 6; [None] is
    the final [ValueError]. *)
Definition ip_address (address : string) : option Address :=
  match IPv4Address address with
  | Some n => Some (IPv4Address_obj n)
  | None =>
      match IPv6Address address with
      | Some (n, scope) => Some (IPv6Address_obj n scope)
      | None => None
      end
  end.

(** [str(n)] for a byte value [0 <= n < 256]. *)
Definition str_byte (n : Z) : string :=
  let digit d := ascii_of_N (Z.to_N (48 + d)) in
  if n <? 10 then String (digit n) EmptyString
  else if n <? 100 then
    String (digit (n / 10)) (String (digit (n mod 10)) EmptyString)
  else String (digit (n / 100))
         (String (digit ((n / 10) mod 10))
            (String (digit (n mod 10)) EmptyString)).

(** The integer of the dotted quad [a.b.c.d]. *)
Definition quad (a b c d : Z) : Z :=
  a * 16777216 + b * 65536 + c * 256 + d.

(** ['.'.join(map(str, [a, b, c, d]))] *)
Definition dotted (a b c d : Z) : string :=
  (str_byte a ++ "." ++ str_byte b ++ "." ++ str_byte c ++ "."
   ++ str_byte d)%string.

(** [_BaseV4._string_from_ip_int] *)
Definition v4_string_from_ip_int (ip_int : Z) : string :=
  dotted (ip_int / 16777216) ((ip_int / 65536) mod 256)
         ((ip_int / 256) mod 256) (ip_int mod 256).

(** Membership of the block [a.b.c.d/len], stated on integers: the
    [2 ^ (32 - len)] addresses from the block's first one on. *)
Definition in_cidr (a b c d len : Z) (n : Z) : Prop :=
  quad a b c d <= n < quad a b c d + 2 ^ (32 - len).

Definition V4_ALL_ONES : Z := 2 ^ IPV4LENGTH - 1.

(** [_prefix_from_prefix_string] for version 4. *)
Definition v4_prefix_from_prefix_string (s : string) : option Z :=
  if Py.is_empty s || negb (forallb Py.is_decimal_digit (Py.chars s))
  then None
  else let p := Py.int10 s in
       if (0 <=? p) && (p <=? IPV4LENGTH) then Some p else None.

(** [_ip_int_from_prefix] *)
Definition v4_ip_int_from_prefix (p : Z) : Z :=
  Z.lxor V4_ALL_ONES (Z.shiftr V4_ALL_ONES p).

(** [IPv4Network(address, strict=True)] for a string ["a.b.c.d/len"] or
    ["a.b.c.d"]; the dotted netmask spelling of the prefix, which no
    literal of [app.py] uses, is left out (it gives [None] here). *)
Definition IPv4Network (address : string) : option Network :=
  match Py.split "/"%char address with
  | [addr] =>
      match IPv4Address addr with
      | Some a => Some (mkNetwork 4 a (v4_ip_int_from_prefix IPV4LENGTH) IPV4LENGTH)
      | None => None
      end
  | [addr; mask] =>
      match IPv4Address addr, v4_prefix_from_prefix_string mask with
      | Some a, Some p =>
          let nm := v4_ip_int_from_prefix p in
          if negb (Z.land a nm =? a) then None
          else Some (mkNetwork 4 a nm p)
      | _, _ => None
      end
  | _ => None
  end.

(** [ipaddress.ip_network], version 4 only (every network literal of
    [app.py] is one). *)
Definition ip_network (address : string) : option Network :=
  IPv4Network address.

(** [_BaseNetwork.__contains__] for an address operand. *)
Definition contains (net : Network) (other : Address) : bool :=
  if negb (net_version net =? addr_version other) then false
  else Z.land (addr_ip other) (netmask net) =? network_address net.

End Ipaddress.

(* ================================================================== *)
(** ** [bytes.decode('utf-8', 'replace')] *)

Module Utf8.

Definition byte_val (b : byte) : Z := Z.of_N (Byte.to_N b).

Definition is_continuation_byte (ch : Z) : bool :=
  (128 <=? ch) && (ch <? 192).

(** U+FFFD, what the [replace] error handler inserts. *)
Definition REPLACEMENT : N := 65533.

Definition cp2 (ch ch2 : Z) : N :=
  Z.to_N (Z.lor (Z.shiftl (Z.land ch 31) 6) (Z.land ch2 63)).

Definition cp3 (ch ch2 ch3 : Z) : N :=
  Z.to_N (Z.lor (Z.lor (Z.shiftl (Z.land ch 15) 12)
                       (Z.shiftl (Z.land ch2 63) 6))
                (Z.land ch3 63)).

Definition cp4 (ch ch2 ch3 ch4 : Z) : N :=
  Z.to_N (Z.lor (Z.lor (Z.lor (Z.shiftl (Z.land ch 7) 18)
                              (Z.shiftl (Z.land ch2 63) 12))
                       (Z.shiftl (Z.land ch3 63) 6))
                (Z.land ch4 63)).

(** One round of the decoder at lead byte [ch] followed by [rest]: the
    code point written and the number of bytes consumed.  An invalid
    start byte consumes itself; an invalid continuation consumes the
    bytes before it; a sequence cut short by the end of the input
    consumes what is left.  Each of these writes one U+FFFD. *)
Definition decode_one (ch : Z) (rest : list Z) : N * nat :=
  if ch <? 128 then (Z.to_N ch, 1%nat)
  else if ch <? 194 then (REPLACEMENT, 1%nat)
  else if ch <? 224 then
    match rest with
    | [] => (REPLACEMENT, 1%nat)
    | ch2 :: _ =>
        if is_continuation_byte ch2 then (cp2 ch ch2, 2%nat)
        else (REPLACEMENT, 1%nat)
    end
  else if ch <? 240 then
    match rest with
    | [] => (REPLACEMENT, 1%nat)
    | ch2 :: rest2 =>
        if negb (is_continuation_byte ch2)
           || (if ch2 <? 160 then ch =? 224 else ch =? 237)
        then (REPLACEMENT, 1%nat)
        else match rest2 with
             | [] => (REPLACEMENT, 2%nat)
             | ch3 :: _ =>
                 if is_continuation_byte ch3 then (cp3 ch ch2 ch3, 3%nat)
                 else (REPLACEMENT, 2%nat)
             end
    end
  else if ch <? 245 then
    match rest with
    | [] => (REPLACEMENT, 1%nat)
    | ch2 :: rest2 =>
        if negb (is_continuation_byte ch2)
           || (if ch2 <? 144 then ch =? 240 else ch =? 244)
        then (REPLACEMENT, 1%nat)
        else match rest2 with
             | [] => (REPLACEMENT, 2%nat)
             | ch3 :: rest3 =>
                 if negb (is_continuation_byte ch3) then (REPLACEMENT, 2%nat)
                 else match rest3 with
                      | [] => (REPLACEMENT, 3%nat)
                      | ch4 :: _ =>
                          if is_continuation_byte ch4
                          then (cp4 ch ch2 ch3 ch4, 4%nat)
                          else (REPLACEMENT, 3%nat)
                      end
             end
    end
  else (REPLACEMENT, 1%nat).

(** The decoding loop.  [skip] counts the bytes of the input that the
    previous round has already consumed. *)
Fixpoint decode_from (skip : nat) (bs : list Z) : list N :=
  match bs with
  | [] => []
  | ch :: rest =>
      match skip with
      | S k => decode_from k rest
      | O => let '(cp, n) := decode_one ch rest in
             cp :: decode_from (n - 1) rest
      end
  end.

(** [bs.decode('utf-8', 'replace')] *)
Definition decode_replace (bs : list byte) : list N :=
  decode_from 0 (map byte_val bs).

(** A Unicode scalar value: a code point that is not a surrogate. *)
Definition is_scalar_value (cp : N) : bool :=
  ((cp <? 55296) || (57343 <? cp))%N && (cp <=? 1114111)%N.

(** The UTF-8 encoding of one scalar value (RFC 3629), what
    [str.encode('utf-8')] writes for it. *)
Definition encode_one (cp : N) : list Z :=
  let c := Z.of_N cp in
  if c <? 128 then [c]
  else if c <? 2048 then [192 + c / 64; 128 + c mod 64]
  else if c <? 65536 then
    [224 + c / 4096; 128 + (c / 64) mod 64; 128 + c mod 64]
  else [240 + c / 262144; 128 + (c / 4096) mod 64; 128 + (c / 64) mod 64;
        128 + c mod 64].

Definition encode (cps : list N) : list Z := flat_map encode_one cps.

(** Permissive decoding in the words of the Unicode standard.  A
    well-formed sequence is the encoding of a scalar value.  Where one
    stands at the front of the input it is decoded to that value.  Where
    none does, the longest front part of the input that begins a
    well-formed sequence, or one byte if there is none, is replaced by
    U+FFFD. *)
Definition starts_char (bs : list Z) : Prop :=
  exists cp rest, is_scalar_value cp = true /\ bs = encode_one cp ++ rest.

Definition begins_char (seg : list Z) : Prop :=
  exists cp tail, is_scalar_value cp = true /\ encode_one cp = seg ++ tail.

Inductive decodes_replacing : list Z -> list N -> Prop :=
| dr_end : decodes_replacing [] []
| dr_char (cp : N) (rest : list Z) (out : list N) :
    is_scalar_value cp = true ->
    decodes_replacing rest out ->
    decodes_replacing (encode_one cp ++ rest) (cp :: out)
| dr_replace (seg rest : list Z) (out : list N) :
    seg <> [] ->
    ~ starts_char (seg ++ rest) ->
    List.length seg = 1%nat \/ begins_char seg ->
    (forall b rest', rest = b :: rest' -> ~ begins_char (seg ++ [b])) ->
    decodes_replacing rest out ->
    decodes_replacing (seg ++ rest) (REPLACEMENT :: out).

End Utf8.

(* ================================================================== *)
(** ** Exceptions *)

Inductive exn : Type := Exception (name : string).

Inductive result (A : Type) : Type :=
| Ok (a : A)
| Raise (e : exn).
Arguments Ok {A} a.
Arguments Raise {A} e.

#[global] Instance result_ret : MRet result := fun A a => Ok a.

#[global] Instance result_bind : MBind result := fun A B k m =>
  match m with
  | Ok a => k a
  | Raise e => Raise e
  end.

(** [try: body  except Exception: handler] *)
Definition try_except {A : Type} (body : result A) (handler : exn -> result A)
  : result A :=
  match body with
  | Ok a => Ok a
  | Raise e => handler e
  end.

(* ================================================================== *)
(** ** [app.py] *)

Module App.

Definition datetime : Type := Q.

(** The environment variables read at import time. *)
Record Config : Type := mkConfig {
  ALERT_WEBHOOK : option string;
  ALERT_EMAIL : option string;
  SMTP_HOST : option string;
  SMTP_PORT : Z;
  SMTP_USER : option string;
  SMTP_PASS : option string;
  RATE_LIMIT_MAX : Z;
  RATE_LIMIT_WINDOW : Z
}.

(** Truth value of an optional string: [None] and [''] are false. *)
(** The configuration when no environment variable is set. *)
Definition default_config : Config :=
  mkConfig None None None 25 None None 20 60.

Definition truthy (o : option string) : bool :=
  match o with
  | Some s => negb (Py.is_empty s)
  | None => false
  end.

Record Token : Type := mkToken {
  tk_token : string;
  tk_owner : option string;
  tk_created_at : datetime;
  tk_expires_at : option datetime;
  tk_active : bool;
  tk_meta : option string
}.

(** The [raw] column: the snapshot that is serialized next to the
    canonical fields. *)
Record RawSnapshot : Type := mkRaw {
  raw_method : string;
  raw_path : string;
  raw_args : list (string * string);
  raw_headers : gmap string string;
  raw_body_preview : list N;
  raw_remote_addr : option string;
  raw_timestamp : datetime
}.

(** A row of [events].  The [headers] and [raw] columns hold JSON text in
    the source; here they hold the value that is serialized. *)
Record Event : Type := mkEvent {
  ev_token : string;
  ev_timestamp : datetime;
  ev_method : string;
  ev_path : string;
  ev_headers : gmap string string;
  ev_body_preview : list N;
  ev_remote_addr : option string;
  ev_remote_host : option string;
  ev_suspicious : bool;
  ev_raw : RawSnapshot
}.

(** The alert payload built at the end of [canary]. *)
Record Payload : Type := mkPayload {
  p_token : string;
  p_token_exists : bool;
  p_token_owner : option string;
  p_timestamp : datetime;
  p_method : string;
  p_path : string;
  p_remote_addr : option string;
  p_remote_host : option string;
  p_suspicious : bool;
  p_headers : gmap string string;
  p_body_preview : list N;
  p_rate_ok : bool
}.

(** The incoming request as Flask presents it. *)
Record Request : Type := mkRequest {
  req_method : string;
  req_path : string;
  req_full_path : string;
  req_args : list (string * string);
  req_headers : list (string * string);
  req_get_data : result (list byte);
  req_remote_addr : option string
}.

(** What the outside world answers while one request is handled: the
    clock ([time.time()], [datetime.utcnow()] for the raw snapshot and
    again for the default of the [timestamp] column), the resolver and
    the storage engine. *)
Record Env : Type := mkEnv {
  time_time : Q;
  utcnow : datetime;
  utcnow_insert : datetime;
  gethostbyaddr : string -> result string;
  db_commit : result unit
}.


(** Process and database state: the [rate_counters] dict, the two
    tables, and the payloads handed to alert threads so far. *)
Record State : Type := mkState {
  rate_counters : gmap string (list Q);
  tokens : list Token;
  events : list Event;
  alerts : list Payload
}.

Definition METADATA_IPS : gset string :=
  {[ "169.254.169.254"; "169.254.170.2"; "100.100.100.200" ]}.

Definition PRIV_RANGE_LITERALS : list string :=
  [ "10.0.0.0/8"; "172.16.0.0/12"; "192.168.0.0/16"; "127.0.0.0/8";
    "169.254.0.0/16" ].

Definition PRIV_RANGES : list Ipaddress.Network :=
  Eval vm_compute in omap Ipaddress.ip_network PRIV_RANGE_LITERALS.

Definition is_private_ip_str (ip_str : string) : bool :=
  match Ipaddress.ip_address ip_str with
  | None => false
  | Some ip => existsb (fun net => Ipaddress.contains net ip) PRIV_RANGES
  end.

Definition enrich_remote_host (env : Env) (ip : option string)
  : result (option string) :=
  if negb (truthy ip) then Ok None
  else match ip with
       | None => Ok None
       | Some a =>
           try_except (h ← gethostbyaddr env a; Ok (Some h))
                      (fun _ => Ok None)
       end.

Definition Qltb (a b : Q) : bool := negb (Qle_bool b a).

(** The [while] loop of [record_and_check_rate]: the final [i]. *)
Fixpoint expired_prefix (window_start : Q) (arr : list Q) : nat :=
  match arr with
  | t :: rest =>
      if Qltb t window_start then S (expired_prefix window_start rest)
      else O
  | [] => O
  end.

Definition record_and_check_rate (cfg : Config) (now : Q) (token : string)
    (counters : gmap string (list Q)) : gmap string (list Q) * bool :=
  let arr := default [] (counters !! token) in
  let window_start := (now - inject_Z (RATE_LIMIT_WINDOW cfg))%Q in
  let i := expired_prefix window_start arr in
  let arr := if Nat.eqb i 0 then arr else drop i arr in
  let arr := arr ++ [now] in
  (<[token := arr]> counters,
   Z.of_nat (List.length arr) <=? RATE_LIMIT_MAX cfg).

(** Successive calls for one key, at the given clock readings. *)
Fixpoint run_rate (cfg : Config) (token : string) (times : list Q)
    (counters : gmap string (list Q)) : gmap string (list Q) * list bool :=
  match times with
  | [] => (counters, [])
  | now :: rest =>
      let '(c1, ok) := record_and_check_rate cfg now token counters in
      let '(c2, oks) := run_rate cfg token rest c1 in
      (c2, ok :: oks)
  end.

(** All readings of [ts] lie within [w] of one another. *)
Definition within_window (w : Q) (ts : list Q) : Prop :=
  Forall (fun t => Forall (fun t' => (t' - w <= t)%Q) ts) ts.





Definition lower (c : ascii) : ascii :=
  let n := Py.ord c in
  if (65 <=? n) && (n <=? 90) then ascii_of_N (Z.to_N (n + 32)) else c.

Definition name_eqb (a b : string) : bool :=
  if list_eq_dec Ascii.ascii_dec (map lower (Py.chars a))
                                 (map lower (Py.chars b))
  then true else false.

(** [request.headers.get(name)]: the first header of that name, names
    compared without regard to case. *)
Fixpoint headers_get (name : string) (hs : list (string * string))
  : option string :=
  match hs with
  | [] => None
  | (k, v) :: rest => if name_eqb k name then Some v else headers_get name rest
  end.

(** [dict(request.headers)]: a later header of the same name wins. *)
Definition headers_dict (hs : list (string * string)) : gmap string string :=
  fold_left (fun m kv => <[fst kv := snd kv]> m) hs ∅.

(** [Token.query.filter_by(token=token).first()] *)
Definition query_token (token : string) (tbl : list Token) : option Token :=
  List.find (fun t => String.eqb (tk_token t) token) tbl.

(** Lines 231-235: the decoded body, before the cut to 2000. *)
Definition body_preview_of (request : Request) : list N :=
  match
    try_except
      (data ← req_get_data request;
       let body := take 4096 data in
       Ok (match body with
           | [] => []
           | _ => Utf8.decode_replace body
           end))
      (fun _ => Ok [])
  with
  | Ok s => s
  | Raise _ => []
  end.

(** Lines 236-241: the address recorded for the client. *)
Definition derive_remote_addr (request : Request) : option string :=
  let xff := headers_get "X-Forwarded-For" (req_headers request) in
  let remote_addr :=
    match xff with
    | Some x =>
        if Py.is_empty x then None
        else Some (Py.strip (List.hd EmptyString (Py.split ","%char x)))
    | None => None
    end in
  if negb (truthy remote_addr) then req_remote_addr request
  else remote_addr.

(** Lines 242-245: the check on the derived address. *)
Definition addr_suspicious (remote_addr : option string) : bool :=
  match remote_addr with
  | Some a =>
      if Py.is_empty a then false
      else is_private_ip_str a || bool_decide (a ∈ METADATA_IPS)
  | None => false
  end.

(** [host_hdr.split(':')[0] if host_hdr else ''] *)
Definition host_part_of (request : Request) : string :=
  let host_hdr := default "" (headers_get "Host" (req_headers request)) in
  if Py.is_empty host_hdr then ""
  else List.hd EmptyString (Py.split ":"%char host_hdr).

(** Lines 246-256: the check on the [Host] header. *)
Definition host_suspicious (request : Request) : bool :=
  let host_part := host_part_of request in
  if Py.is_empty host_part then false else is_private_ip_str host_part.

(** The view function [canary].  It returns the new state and either
    the response or the exception that leaves it.  [alert_async(payload)]
    starts a thread and returns; here the payload joins [alerts], and
    what the thread then does is [worker]. *)
Definition canary (cfg : Config) (env : Env) (request : Request)
    (token : string) (st : State) : State * result (string * Z) :=
  let '(counters, ok_rate) :=
    record_and_check_rate cfg (time_time env) token (rate_counters st) in
  let st1 := mkState counters (tokens st) (events st) (alerts st) in
  let t := query_token token (tokens st) in
  let body_preview := body_preview_of request in
  let remote_addr := derive_remote_addr request in
  let suspicious := addr_suspicious remote_addr in
  let suspicious := if host_suspicious request then true else suspicious in
  match
    (remote_host ← (if truthy remote_addr
                     then enrich_remote_host env remote_addr
                     else Ok None);
     let ev := mkEvent token (utcnow_insert env) (req_method request)
                 (req_full_path request)
                 (headers_dict (req_headers request))
                 (take 2000 body_preview)
                 remote_addr remote_host
                 (suspicious || negb ok_rate)
                 (mkRaw (req_method request) (req_path request)
                    (req_args request)
                    (headers_dict (req_headers request))
                    body_preview remote_addr (utcnow env)) in
     db_commit env ;;
     Ok ev)
  with
  | Raise e => (st1, Raise e)
  | Ok ev =>
      let payload :=
        mkPayload token
          (match t with Some _ => true | None => false end)
          (match t with Some tk => tk_owner tk | None => None end)
          (ev_timestamp ev) (ev_method ev) (ev_path ev)
          (ev_remote_addr ev) (ev_remote_host ev) (ev_suspicious ev)
          (ev_headers ev) (ev_body_preview ev) ok_rate in
      (mkState counters (tokens st) (events st ++ [ev])
               (alerts st ++ [payload]),
       Ok ("OK", 200))
  end.

(** The five blocks of [PRIV_RANGES], as sets of integers. *)
Definition in_private_block (n : Z) : Prop :=
  Ipaddress.in_cidr 10 0 0 0 8 n \/ Ipaddress.in_cidr 172 16 0 0 12 n \/
  Ipaddress.in_cidr 192 168 0 0 16 n \/ Ipaddress.in_cidr 127 0 0 0 8 n \/
  Ipaddress.in_cidr 169 254 0 0 16 n.

(** The [methods=[...]] argument of the route. *)
Definition canary_methods : list string :=
  [ "GET"; "POST"; "PUT"; "PATCH"; "DELETE"; "HEAD"; "OPTIONS" ].

(** The body of a response as the client receives it: the text a view
    returned, or the HTML page that Werkzeug renders for an HTTP error
    of the given status. *)
Inductive Body : Type :=
| BodyText (text : string)
| BodyErrorPage (status : Z).

(** Werkzeug sends the response to a HEAD request without its body. *)
Definition on_the_wire (method : string) (body : Body) : Body :=
  if String.eqb method "HEAD" then BodyText "" else body.

(** What Flask does with a request for [/c/<token>]: a method outside
    the route's list is answered with the 405 page without calling the
    view; an exception that leaves the view is answered with the 500
    page; the text the view returns is the body, which a HEAD request
    does not get. *)
Definition serve_canary (cfg : Config) (env : Env) (request : Request)
    (token : string) (st : State) : State * (Body * Z) :=
  if existsb (String.eqb (req_method request)) canary_methods then
    match canary cfg env request token st with
    | (st', Ok (text, status)) =>
        (st', (on_the_wire (req_method request) (BodyText text), status))
    | (st', Raise _) =>
        (st', (on_the_wire (req_method request) (BodyErrorPage 500), 500))
    end
  else (st, (BodyErrorPage 405, 405)).

(** The token state in the words of the specification: a token is
    resolved when it is known, active and not expired. *)
Definition token_resolved_spec (now : datetime) (token : string)
    (tbl : list Token) : bool :=
  match query_token token tbl with
  | Some t =>
      tk_active t
      && match tk_expires_at t with
         | Some e => Qltb now e
         | None => true
         end
  | None => false
  end.

(** Sample inputs: a quiet environment in which the resolver finds
    nothing and the commit succeeds, an empty process, and a bare request
    from a public peer. *)
Definition sample_env (now : Q) : Env :=
  mkEnv now now now (fun _ => Raise (Exception "herror")) (Ok tt).

Definition empty_state : State := mkState ∅ [] [] [].

Definition sample_request (method : string) (headers : list (string * string))
  : Request :=
  mkRequest method "/c/tok" "/c/tok?" [] headers (Ok []) (Some "8.8.8.8").



(** The words of the specification for the address derivation: the
    first comma-separated entry of a header value, and the result of
    trimming white space off both ends of a string. *)
Definition all_space (s : string) : Prop :=
  forallb Py.isspace (Py.chars s) = true.

Definition first_entry_of (x entry : string) : Prop :=
  Py.contains "," entry = false
  /\ (x = entry \/ exists rest, x = (entry ++ String "," rest)%string).

Definition trimmed_of (entry t : string) : Prop :=
  (exists l r, entry = (l ++ t ++ r)%string /\ all_space l /\ all_space r)
  /\ match t with
     | String c _ => Py.isspace c = false
     | EmptyString => True
     end
  /\ (t = EmptyString
      \/ exists pre c, t = (pre ++ String c EmptyString)%string
                       /\ Py.isspace c = false).

(** A run of requests, each with its own environment, left to right. *)
Fixpoint serve_all (cfg : Config) (token : string)
    (reqs : list (Env * Request)) (st : State) : State * list (Body * Z) :=
  match reqs with
  | [] => (st, [])
  | (env, r) :: rest =>
      let '(st1, resp) := serve_canary cfg env r token st in
      let '(st2, resps) := serve_all cfg token rest st1 in
      (st2, resp :: resps)
  end.

(** Requests for any tokens, each with its own environment. *)
Fixpoint serve_many (cfg : Config) (reqs : list (Env * Request * string))
    (st : State) : State * list (Body * Z) :=
  match reqs with
  | [] => (st, [])
  | (env, r, token) :: rest =>
      let '(st1, resp) := serve_canary cfg env r token st in
      let '(st2, resps) := serve_many cfg rest st1 in
      (st2, resp :: resps)
  end.

(** The sliding-window limiter stated from scratch: a hit is allowed when
    the hits so far, this one included, that are no older than the
    window number at most [max_hits]. *)
Fixpoint sliding_spec (window : Q) (max_hits : Z) (done times : list Q)
  : list bool :=
  match times with
  | [] => []
  | now :: rest =>
      (Z.of_nat
         (List.length
            (List.filter (fun t => Qle_bool (now - window) t) (done ++ [now])))
       <=? max_hits)
      :: sliding_spec window max_hits (done ++ [now]) rest
  end.

(** [t.active = False] on the row that [filter_by(token=token).first()]
    returns. *)
Fixpoint deactivate_first (token : string) (tbl : list Token) : list Token :=
  match tbl with
  | [] => []
  | t :: rest =>
      if String.eqb (tk_token t) token
      then mkToken (tk_token t) (tk_owner t) (tk_created_at t)
                   (tk_expires_at t) false (tk_meta t) :: rest
      else t :: deactivate_first token rest
  end.

(** The view [deactivate_token], with the status Flask answers: 404 for
    [abort(404)], 500 when the commit raises (the change is rolled back),
    200 with the body [{'ok': True}] otherwise. *)
Definition deactivate_token (env : Env) (token : string) (st : State)
  : State * Z :=
  match query_token token (tokens st) with
  | None => (st, 404)
  | Some _ =>
      match db_commit env with
      | Ok _ =>
          (mkState (rate_counters st) (deactivate_first token (tokens st))
                   (events st) (alerts st), 200)
      | Raise _ => (st, 500)
      end
  end.

(** [gen_token]: [uuid_hex i] is what the [i]-th call of
    [uuid.uuid4().hex] returns.  Five candidates are tried against the
    table; the sixth is returned as it comes. *)
Fixpoint gen_token_loop (tries : nat) (uuid_hex : nat -> string) (i : nat)
    (tbl : list Token) : string :=
  match tries with
  | O => uuid_hex i
  | S k =>
      let candidate := uuid_hex i in
      match query_token candidate tbl with
      | None => candidate
      | Some _ => gen_token_loop k uuid_hex (S i) tbl
      end
  end.

Definition gen_token (uuid_hex : nat -> string) (tbl : list Token) : string :=
  gen_token_loop 5 uuid_hex 0 tbl.

End App.

(* ================================================================== *)
(** * Properties *)

(** ** Strings *)

Section Strings.

Lemma ascii_eqb_sym (a b : ascii) : Py.ascii_eqb a b = Py.ascii_eqb b a.
Proof. apply Ascii.eqb_sym. Qed.

Lemma split_not_nil sep s : Py.split sep s <> [].
Proof.
  destruct s as [|c r]; simpl; [discriminate|].
  destruct (Py.ascii_eqb c sep); [discriminate|].
  destruct (Py.split sep r); discriminate.
Qed.

Lemma split_no_sep sep s :
  Py.contains sep s = false -> Py.split sep s = [s].
Proof.
  unfold Py.contains. induction s as [|c r IH]; simpl; [reflexivity|].
  rewrite orb_false_iff. intros [Hc Hr].
  rewrite ascii_eqb_sym, Hc, (IH Hr). reflexivity.
Qed.

Lemma split_app_sep sep s1 s2 :
  Py.contains sep s1 = false ->
  Py.split sep (s1 ++ String sep s2)%string = s1 :: Py.split sep s2.
Proof.
  unfold Py.contains. induction s1 as [|c r IH]; simpl.
  - intros _. unfold Py.ascii_eqb. rewrite Ascii.eqb_refl. reflexivity.
  - rewrite orb_false_iff. intros [Hc Hr].
    rewrite ascii_eqb_sym, Hc, (IH Hr). reflexivity.
Qed.

(** The first part of a split holds no separator. *)
Lemma hd_split_no_sep sep s :
  Py.contains sep (List.hd EmptyString (Py.split sep s)) = false.
Proof.
  unfold Py.contains. induction s as [|c r IH]; simpl; [reflexivity|].
  destruct (Py.ascii_eqb c sep) eqn:E; simpl; [reflexivity|].
  destruct (Py.split sep r) as [|h t] eqn:Es; simpl.
  - rewrite ascii_eqb_sym, E. reflexivity.
  - simpl in IH. rewrite ascii_eqb_sym, E, IH. reflexivity.
Qed.

(** The first part of a split is the text before the first separator. *)
Lemma hd_split_prefix sep s :
  let h := List.hd EmptyString (Py.split sep s) in
  s = h \/ exists rest, s = (h ++ String sep rest)%string.
Proof.
  induction s as [|c r IH]; simpl; [left; reflexivity|].
  destruct (Py.ascii_eqb c sep) eqn:E; simpl.
  - right. exists r. apply Ascii.eqb_eq in E. subst. reflexivity.
  - destruct (Py.split sep r) as [|h t] eqn:Es.
    + exfalso. eapply split_not_nil, Es.
    + simpl in *. destruct IH as [IH | [rest IH]].
      * left. congruence.
      * right. exists rest. rewrite IH at 1. reflexivity.
Qed.

Lemma split_several sep s :
  (1 < List.length (Py.split sep s))%nat -> Py.contains sep s = true.
Proof.
  intro H. destruct (Py.contains sep s) eqn:E; [reflexivity|].
  rewrite (split_no_sep _ _ E) in H. simpl in H. lia.
Qed.

End Strings.

(** ** IPv4 parsing and the private blocks *)

Section IPv4.

Import Ipaddress.

Lemma int10_nonneg_aux (l : list ascii) (acc : Z) :
  0 <= acc -> forallb Py.is_decimal_digit l = true ->
  0 <= fold_left (fun acc c => 10 * acc + (Py.ord c - 48)) l acc.
Proof.
  revert acc. induction l as [|c l IH]; intros acc Hacc Hd; simpl; [exact Hacc|].
  simpl in Hd. apply andb_true_iff in Hd as [Hc Hl].
  apply IH; [|exact Hl].
  unfold Py.is_decimal_digit in Hc. apply andb_true_iff in Hc as [Hc _].
  apply Z.leb_le in Hc. lia.
Qed.

Lemma v4_parse_octet_range s v :
  v4_parse_octet s = Some v -> 0 <= v <= 255.
Proof.
  unfold v4_parse_octet.
  destruct (Py.is_empty s); [discriminate|].
  destruct (forallb Py.is_decimal_digit (Py.chars s)) eqn:Hd; [|discriminate].
  cbn [negb].
  destruct (3 <? Py.str_len s); [discriminate|].
  match goal with |- (if ?b then _ else _) = _ -> _ => destruct b end;
    [discriminate|].
  destruct (255 <? Py.int10 s) eqn:Hle; [discriminate|].
  intro H. injection H as <-. apply Z.ltb_ge in Hle.
  split; [|exact Hle]. unfold Py.int10. apply int10_nonneg_aux; [lia|exact Hd].
Qed.

Lemma from_octets_bound octets : forall acc n,
  from_octets acc octets = Some n -> 0 <= acc ->
  acc * 256 ^ Z.of_nat (List.length octets) <= n
    < (acc + 1) * 256 ^ Z.of_nat (List.length octets).
Proof.
  induction octets as [|o rest IH]; intros acc n H Hacc.
  - simpl in *. injection H as <-. lia.
  - cbn [from_octets] in H.
    destruct (v4_parse_octet o) as [v|] eqn:Ho; [|discriminate].
    apply v4_parse_octet_range in Ho.
    apply IH in H; [|lia].
    cbn [List.length]. rewrite Nat2Z.inj_succ, Z.pow_succ_r by lia.
    set (p := 256 ^ Z.of_nat (List.length rest)) in *.
    assert (0 < p) by (apply Z.pow_pos_nonneg; lia). nia.
Qed.

Lemma IPv4Address_range s n : IPv4Address s = Some n -> 0 <= n < 2 ^ 32.
Proof.
  unfold IPv4Address, v4_ip_int_from_string.
  destruct (Py.contains "/" s); [discriminate|].
  destruct (Py.is_empty s); [discriminate|].
  destruct (Nat.eqb (List.length (Py.split "." s)) 4) eqn:Hlen; [|discriminate].
  cbn [negb]. intro H. apply from_octets_bound in H; [|lia].
  apply Nat.eqb_eq in Hlen. rewrite Hlen in H.
  change (256 ^ Z.of_nat 4) with (2 ^ 32) in H. lia.
Qed.

Lemma IPv4Address_has_dot s n :
  IPv4Address s = Some n -> Py.contains "." s = true.
Proof.
  unfold IPv4Address, v4_ip_int_from_string.
  destruct (Py.contains "/" s); [discriminate|].
  destruct (Py.is_empty s); [discriminate|].
  destruct (Nat.eqb (List.length (Py.split "." s)) 4) eqn:Hlen; [|discriminate].
  intros _. apply Nat.eqb_eq in Hlen. apply split_several. lia.
Qed.

(** Masking with the top [m] of [k + m] bits rounds down to a multiple
    of [2 ^ k]. *)
Lemma land_high_bits n k m :
  0 <= k -> 0 <= m -> 0 <= n < 2 ^ (k + m) ->
  Z.land n (Z.shiftl (Z.ones m) k) = 2 ^ k * (n / 2 ^ k).
Proof.
  intros Hk Hm Hn.
  assert (E : Z.land n (Z.shiftl (Z.ones m) k)
              = Z.shiftl (Z.land (Z.shiftr n k) (Z.ones m)) k).
  { apply Z.bits_inj'. intros i Hi. rewrite Z.land_spec.
    destruct (Z.lt_ge_cases i k) as [Hlt | Hge].
    - rewrite !Z.shiftl_spec_low by lia. apply andb_false_r.
    - rewrite !Z.shiftl_spec by lia.
      rewrite Z.land_spec, Z.shiftr_spec by lia.
      replace (i - k + k) with i by lia. reflexivity. }
  rewrite E, Z.land_ones by lia.
  rewrite Z.shiftr_div_pow2, Z.shiftl_mul_pow2 by lia.
  rewrite Z.mod_small; [lia|].
  split; [apply Z.div_pos; [lia | apply Z.pow_pos_nonneg; lia]|].
  apply Z.div_lt_upper_bound; [apply Z.pow_pos_nonneg; lia|].
  rewrite <- Z.pow_add_r by lia. lia.
Qed.

Lemma contains_block n (a b c d len : Z) :
  0 <= n < 2 ^ 32 -> 0 <= len <= 32 ->
  quad a b c d mod 2 ^ (32 - len) = 0 ->
  Z.land n (Z.shiftl (Z.ones len) (32 - len)) = quad a b c d
  <-> in_cidr a b c d len n.
Proof.
  intros Hn Hlen Hal. unfold in_cidr.
  rewrite land_high_bits by (replace (32 - len + len) with 32; lia).
  set (p := 2 ^ (32 - len)) in *.
  assert (Hp : 0 < p) by (apply Z.pow_pos_nonneg; lia).
  pose proof (Z.div_mod n p ltac:(lia)) as Hd.
  pose proof (Z.mod_pos_bound n p Hp) as Hm.
  pose proof (Z.div_mod (quad a b c d) p ltac:(lia)) as Hq.
  rewrite Hal in Hq.
  split; intro H; [lia|].
  assert (quad a b c d / p = n / p) as <-; [|lia].
  apply Z.div_unique with (r := n - quad a b c d); lia.
Qed.

(** [is_private_ip_str] holds exactly on the strings that parse as a
    version 4 address inside one of the five blocks. *)
Lemma is_private_ip_str_iff s :
  App.is_private_ip_str s = true
  <-> exists n, IPv4Address s = Some n /\ App.in_private_block n.
Proof.
  unfold App.is_private_ip_str, ip_address.
  destruct (IPv4Address s) as [n|] eqn:E.
  - pose proof (IPv4Address_range _ _ E) as Hn.
    unfold App.PRIV_RANGES, App.in_private_block.
    cbn [existsb contains net_version addr_version addr_ip netmask
         network_address negb Z.eqb Pos.eqb].
    rewrite orb_false_r, !orb_true_iff, !Z.eqb_eq.
    assert (B1 : Z.land n 4278190080 = 167772160 <-> in_cidr 10 0 0 0 8 n)
      by (apply (contains_block n 10 0 0 0 8); [exact Hn | lia | reflexivity]).
    assert (B2 : Z.land n 4293918720 = 2886729728 <-> in_cidr 172 16 0 0 12 n)
      by (apply (contains_block n 172 16 0 0 12); [exact Hn | lia | reflexivity]).
    assert (B3 : Z.land n 4294901760 = 3232235520 <-> in_cidr 192 168 0 0 16 n)
      by (apply (contains_block n 192 168 0 0 16); [exact Hn | lia | reflexivity]).
    assert (B4 : Z.land n 4278190080 = 2130706432 <-> in_cidr 127 0 0 0 8 n)
      by (apply (contains_block n 127 0 0 0 8); [exact Hn | lia | reflexivity]).
    assert (B5 : Z.land n 4294901760 = 2851995648 <-> in_cidr 169 254 0 0 16 n)
      by (apply (contains_block n 169 254 0 0 16); [exact Hn | lia | reflexivity]).
    rewrite B1, B2, B3, B4, B5.
    split.
    + intro H. exists n. split; [reflexivity|]. tauto.
    + intros [n' [Hn' H]]. injection Hn' as <-. tauto.
  - split.
    + destruct (IPv6Address s) as [[n sc]|]; [|discriminate].
      intro H. exfalso. revert H. unfold App.PRIV_RANGES.
      cbn. discriminate.
    + intros [n [Hn _]]. discriminate.
Qed.

Lemma chars_append s1 s2 :
  Py.chars (s1 ++ s2)%string = Py.chars s1 ++ Py.chars s2.
Proof.
  induction s1 as [|c r IH]; [reflexivity|].
  change (c :: Py.chars (r ++ s2)%string = c :: (Py.chars r ++ Py.chars s2)).
  rewrite IH. reflexivity.
Qed.

Lemma contains_append c s1 s2 :
  Py.contains c (s1 ++ s2)%string = Py.contains c s1 || Py.contains c s2.
Proof. unfold Py.contains. rewrite chars_append. apply existsb_app. Qed.

Lemma contains_cons c c' s :
  Py.contains c (String c' s) = Py.ascii_eqb c c' || Py.contains c s.
Proof. reflexivity. Qed.

(** Four octet strings joined by dots parse to their quad. *)
Lemma joined_octets_parse sa sb sc sd va vb vc vd :
  v4_parse_octet sa = Some va -> v4_parse_octet sb = Some vb ->
  v4_parse_octet sc = Some vc -> v4_parse_octet sd = Some vd ->
  Py.contains "." sa = false -> Py.contains "." sb = false ->
  Py.contains "." sc = false -> Py.contains "." sd = false ->
  Py.contains "/" sa = false -> Py.contains "/" sb = false ->
  Py.contains "/" sc = false -> Py.contains "/" sd = false ->
  IPv4Address (sa ++ "." ++ sb ++ "." ++ sc ++ "." ++ sd)%string
  = Some (quad va vb vc vd).
Proof.
  intros Pa Pb Pc Pd Da Db Dc Dd Sa Sb Sc Sd.
  unfold IPv4Address, v4_ip_int_from_string.
  change ("." ++ sb ++ "." ++ sc ++ "." ++ sd)%string
    with (String "." (sb ++ String "." (sc ++ String "." sd)))%string.
  rewrite !contains_append, !contains_cons, !contains_append, !contains_cons,
    !contains_append, !contains_cons, Sa, Sb, Sc, Sd.
  cbn [orb Py.ascii_eqb Ascii.eqb Bool.eqb].
  destruct sa as [|ca ra]; [discriminate Pa|].
  change (Py.is_empty (String ca ra ++ _)%string) with false. cbv iota.
  rewrite !split_app_sep, (split_no_sep _ _ Dd) by assumption.
  cbn [List.length Nat.eqb negb from_octets].
  rewrite Pa, Pb, Pc, Pd. unfold quad. f_equal. lia.
Qed.

Lemma str_byte_parses a :
  0 <= a <= 255 ->
  v4_parse_octet (str_byte a) = Some a
  /\ Py.contains "." (str_byte a) = false
  /\ Py.contains "/" (str_byte a) = false.
Proof.
  intro Ha.
  assert (H : forallb
                (fun k =>
                   let a := Z.of_nat k in
                   match v4_parse_octet (str_byte a) with
                   | Some v => v =? a
                   | None => false
                   end
                   && negb (Py.contains "." (str_byte a))
                   && negb (Py.contains "/" (str_byte a)))
                (seq 0 256) = true) by (vm_compute; reflexivity).
  rewrite forallb_forall in H. specialize (H (Z.to_nat a)).
  rewrite Z2Nat.id in H by lia. cbv zeta in H.
  assert (Hin : In (Z.to_nat a) (seq 0 256)) by (apply in_seq; lia).
  apply H in Hin. apply andb_true_iff in Hin as [Hin H3].
  apply andb_true_iff in Hin as [H1 H2].
  apply negb_true_iff in H2, H3.
  destruct (v4_parse_octet (str_byte a)) as [v|]; [|discriminate].
  apply Z.eqb_eq in H1. subst v. auto.
Qed.

(** Every dotted quad in canonical spelling parses to its integer. *)
Lemma dotted_parses a b c d :
  0 <= a <= 255 -> 0 <= b <= 255 -> 0 <= c <= 255 -> 0 <= d <= 255 ->
  ip_address (dotted a b c d) = Some (IPv4Address_obj (quad a b c d)).
Proof.
  intros Ha Hb Hc Hd.
  destruct (str_byte_parses a Ha) as (Pa & Da & Sa).
  destruct (str_byte_parses b Hb) as (Pb & Db & Sb).
  destruct (str_byte_parses c Hc) as (Pc & Dc & Sc).
  destruct (str_byte_parses d Hd) as (Pd & Dd & Sd).
  unfold ip_address, dotted.
  rewrite (joined_octets_parse _ _ _ _ a b c d) by assumption.
  reflexivity.
Qed.

Lemma ip_address_v4_inv s n :
  ip_address s = Some (IPv4Address_obj n) -> IPv4Address s = Some n.
Proof.
  unfold ip_address. destruct (IPv4Address s) as [m|].
  - intro H. injection H as <-. reflexivity.
  - destruct (IPv6Address s) as [[m sc]|]; discriminate.
Qed.

Lemma ip_address_v6_inv s n sc :
  ip_address s = Some (IPv6Address_obj n sc) ->
  IPv4Address s = None /\ IPv6Address s = Some (n, sc).
Proof.
  unfold ip_address. destruct (IPv4Address s) as [m|]; [discriminate|].
  destruct (IPv6Address s) as [[m sc']|]; [|discriminate].
  intro H. injection H as <- <-. auto.
Qed.

Lemma ip_address_none_inv s :
  ip_address s = None -> IPv4Address s = None.
Proof.
  unfold ip_address. destruct (IPv4Address s) as [m|]; [discriminate|].
  reflexivity.
Qed.

End IPv4.

(** ** The address classifier *)

Section Classifier.

Import Ipaddress App.

Lemma metadata_elem s :
  s ∈ METADATA_IPS
  <-> s = "169.254.169.254" \/ s = "169.254.170.2" \/ s = "100.100.100.200".
Proof.
  unfold METADATA_IPS. rewrite !elem_of_union, !elem_of_singleton. tauto.
Qed.

Lemma metadata_parse s :
  s ∈ METADATA_IPS -> exists n, IPv4Address s = Some n.
Proof.
  rewrite metadata_elem. intros [-> | [-> | ->]]; eexists; reflexivity.
Qed.

Lemma addr_suspicious_some s :
  addr_suspicious (Some s)
  = is_private_ip_str s || bool_decide (s ∈ METADATA_IPS).
Proof.
  unfold addr_suspicious. destruct s as [|c r]; [|reflexivity].
  cbn [Py.is_empty]. symmetry. apply orb_false_iff. split.
  - reflexivity.
  - apply bool_decide_eq_false. rewrite metadata_elem.
    intros [? | [? | ?]]; congruence.
Qed.

(** C1. The check made on the derived client address is a total function
    of the address string.  It is true for every string that parses to
    an address of 10.0.0.0/8, 172.16.0.0/12, 192.168.0.0/16, 127.0.0.0/8 or
    169.254.0.0/16, in particular for every dotted quad of these blocks
    in canonical spelling, and for the three metadata literals; it is
    false for an address outside the blocks and the literals, such as
    8.8.8.8; and on input that does not parse it is false. *)
Theorem address_classifier_spec :
  (forall (s : string) (n : Z),
     ip_address s = Some (IPv4Address_obj n) ->
     in_private_block n ->
     is_private_ip_str s = true /\ addr_suspicious (Some s) = true)
  /\ (forall a b c d : Z,
        0 <= a <= 255 -> 0 <= b <= 255 -> 0 <= c <= 255 -> 0 <= d <= 255 ->
        in_private_block (quad a b c d) ->
        addr_suspicious (Some (dotted a b c d)) = true)
  /\ (forall s : string,
        s = "169.254.169.254" \/ s = "169.254.170.2"
        \/ s = "100.100.100.200" ->
        addr_suspicious (Some s) = true)
  /\ (forall (s : string) (n : Z),
        ip_address s = Some (IPv4Address_obj n) ->
        ~ in_private_block n -> s ∉ METADATA_IPS ->
        addr_suspicious (Some s) = false)
  /\ addr_suspicious (Some "8.8.8.8") = false
  /\ (forall s : string,
        ip_address s = None ->
        is_private_ip_str s = false /\ addr_suspicious (Some s) = false).
Proof.
  assert (Hblock : forall s n, ip_address s = Some (IPv4Address_obj n) ->
            in_private_block n -> is_private_ip_str s = true).
  { intros s n Hs Hn. apply is_private_ip_str_iff. exists n.
    split; [apply ip_address_v4_inv, Hs | exact Hn]. }
  split; [|split; [|split; [|split; [|split]]]].
  - intros s n Hs Hn. rewrite addr_suspicious_some, (Hblock s n Hs Hn). auto.
  - intros a b c d Ha Hb Hc Hd Hn.
    rewrite addr_suspicious_some,
      (Hblock _ _ (dotted_parses a b c d Ha Hb Hc Hd) Hn). reflexivity.
  - intros s Hs. rewrite addr_suspicious_some.
    apply orb_true_iff. right. apply bool_decide_eq_true, metadata_elem, Hs.
  - intros s n Hs Hn Hm. rewrite addr_suspicious_some.
    apply orb_false_iff. split; [|apply bool_decide_eq_false, Hm].
    apply not_true_iff_false. intro H.
    apply is_private_ip_str_iff in H as [n' [Hn' Hb]].
    apply ip_address_v4_inv in Hs. congruence.
  - vm_compute. reflexivity.
  - intros s Hs.
    assert (Hp : is_private_ip_str s = false)
      by (unfold is_private_ip_str; rewrite Hs; reflexivity).
    split; [exact Hp|]. rewrite addr_suspicious_some, Hp.
    apply bool_decide_eq_false. intro Hm.
    apply metadata_parse in Hm as [n Hn].
    apply ip_address_none_inv in Hs. congruence.
Qed.

Lemma address_classifier_spec_witness :
  (is_private_ip_str "172.31.255.254" = true
   /\ addr_suspicious (Some "172.31.255.254") = true)
  /\ addr_suspicious (Some (dotted 192 168 7 9)) = true
  /\ addr_suspicious (Some "100.100.100.200") = true
  /\ addr_suspicious (Some "100.64.0.1") = false
  /\ (is_private_ip_str "010.0.0.1" = false
      /\ addr_suspicious (Some "010.0.0.1") = false).
Proof.
  destruct address_classifier_spec as (H1 & H2 & H3 & H4 & _ & H6).
  split; [|split; [|split; [|split]]].
  - apply (H1 "172.31.255.254" 2887778302); [reflexivity|].
    right; left. unfold in_cidr. vm_compute. split; congruence.
  - apply (H2 192 168 7 9); try lia.
    right; right; left. unfold in_cidr. vm_compute. split; congruence.
  - apply H3. right; right. reflexivity.
  - apply (H4 "100.64.0.1" 1681915905); [reflexivity| |].
    + unfold in_private_block, in_cidr. vm_compute. intuition congruence.
    + rewrite metadata_elem. intuition discriminate.
  - apply H6. reflexivity.
Defined.

End Classifier.

(** ** The handler *)

Section Handler.

Import App.

Lemma enrich_remote_host_total env ip :
  exists h, enrich_remote_host env ip = Ok h.
Proof.
  unfold enrich_remote_host. destruct (truthy ip); cbn [negb]; [|eauto].
  destruct ip as [a|]; [|eauto].
  destruct (gethostbyaddr env a) as [h|e]; cbn; eauto.
Qed.

(** What [canary] does when the commit goes through. *)
Lemma canary_commit_ok cfg env request token st :
  db_commit env = Ok tt ->
  exists (ev : Event) (payload : Payload),
    canary cfg env request token st
    = (mkState
         (fst (record_and_check_rate cfg (time_time env) token
                                     (rate_counters st)))
         (tokens st) (events st ++ [ev]) (alerts st ++ [payload]),
       Ok ("OK", 200))
    /\ ev_token ev = token
    /\ ev_method ev = req_method request
    /\ ev_body_preview ev = take 2000 (body_preview_of request)
    /\ ev_remote_addr ev = derive_remote_addr request
    /\ ev_suspicious ev
       = (addr_suspicious (derive_remote_addr request)
          || host_suspicious request)
         || negb (snd (record_and_check_rate cfg (time_time env) token
                                             (rate_counters st)))
    /\ p_token_exists payload
       = (match query_token token (tokens st) with
          | Some _ => true
          | None => false
          end)
    /\ p_token_owner payload
       = (match query_token token (tokens st) with
          | Some tk => tk_owner tk
          | None => None
          end)
    /\ p_rate_ok payload
       = snd (record_and_check_rate cfg (time_time env) token
                                    (rate_counters st))
    /\ p_suspicious payload = ev_suspicious ev.
Proof.
  intro Hc. unfold canary.
  destruct (record_and_check_rate cfg (time_time env) token (rate_counters st))
    as [counters ok_rate].
  assert (Hh : exists h,
             (if truthy (derive_remote_addr request)
              then enrich_remote_host env (derive_remote_addr request)
              else Ok None) = Ok h).
  { destruct (truthy (derive_remote_addr request)); [|eauto].
    apply enrich_remote_host_total. }
  destruct Hh as [h Hh]. rewrite Hh, Hc. cbn.
  eexists. eexists. split; [reflexivity|]. cbn.
  repeat split.
  destruct (host_suspicious request); [|rewrite orb_false_r; reflexivity].
  rewrite orb_true_r. reflexivity.
Qed.

(** What [canary] does when the commit raises. *)
Lemma canary_commit_fail cfg env request token st e :
  db_commit env = Raise e ->
  canary cfg env request token st
  = (mkState
       (fst (record_and_check_rate cfg (time_time env) token
                                   (rate_counters st)))
       (tokens st) (events st) (alerts st),
     Raise e).
Proof.
  intro Hc. unfold canary.
  destruct (record_and_check_rate cfg (time_time env) token (rate_counters st))
    as [counters ok_rate].
  assert (Hh : exists h,
             (if truthy (derive_remote_addr request)
              then enrich_remote_host env (derive_remote_addr request)
              else Ok None) = Ok h).
  { destruct (truthy (derive_remote_addr request)); [|eauto].
    apply enrich_remote_host_total. }
  destruct Hh as [h Hh]. rewrite Hh, Hc. reflexivity.
Qed.

Lemma unit_result_cases (r : result unit) : r = Ok tt \/ exists e, r = Raise e.
Proof. destruct r as [[]|e]; eauto. Qed.

Lemma method_listed request :
  existsb (String.eqb (req_method request)) canary_methods = true
  <-> In (req_method request) canary_methods.
Proof.
  rewrite existsb_exists. split.
  - intros [m [Hin He]]. apply String.eqb_eq in He. congruence.
  - intro H. exists (req_method request). split; [exact H|].
    apply String.eqb_refl.
Qed.

(** C7, as stated, fails: a request whose method is outside the route's
    list is answered 405 and leaves no trace, although the commit would
    have gone through; and the answer to HEAD, a method of the list,
    has status 200 but no body. *)
Lemma serve_canary_trace_rejected :
  db_commit (sample_env 0) = Ok tt
  /\ serve_canary default_config (sample_env 0) (sample_request "TRACE" [])
                  "tok" empty_state
     = (empty_state, (BodyErrorPage 405, 405))
  /\ snd (serve_canary default_config (sample_env 0)
                       (sample_request "HEAD" []) "tok" empty_state)
     = (BodyText "", 200).
Proof. repeat split; reflexivity. Qed.

(** C7, amended. The token endpoint accepts the seven methods of its
    route.  For these, whatever the classification, the rate limiter, the
    token table and the alert configuration say, the answer has status
    200 and one Event is stored whenever the commit succeeds; its body is
    "OK", except for HEAD, whose answer has no body.  A failed commit is
    answered with status 500 (the error page, or no body for HEAD) and
    stores nothing.  Any other method is answered with the 405 page by
    the router and nothing is recorded. *)
Theorem serve_canary_status (cfg : Config) (env : Env) (request : Request)
    (token : string) (st : State) :
  (In (req_method request) canary_methods ->
   (db_commit env = Ok tt ->
    snd (serve_canary cfg env request token st)
    = (if String.eqb (req_method request) "HEAD"
       then BodyText "" else BodyText "OK", 200)
    /\ exists ev, events (fst (serve_canary cfg env request token st))
                  = events st ++ [ev])
   /\ (forall e, db_commit env = Raise e ->
       snd (serve_canary cfg env request token st)
       = (if String.eqb (req_method request) "HEAD"
          then BodyText "" else BodyErrorPage 500, 500)
       /\ events (fst (serve_canary cfg env request token st)) = events st))
  /\ (~ In (req_method request) canary_methods ->
      serve_canary cfg env request token st
      = (st, (BodyErrorPage 405, 405))).
Proof.
  unfold serve_canary, on_the_wire. split.
  - intro Hm. apply method_listed in Hm. rewrite Hm. split.
    + intro Hc.
      destruct (canary_commit_ok cfg env request token st Hc)
        as (ev & payload & -> & _).
      cbn. split; [reflexivity | eauto].
    + intros e Hc. rewrite (canary_commit_fail cfg env request token st e Hc).
      cbn. auto.
  - intro Hm. rewrite <- method_listed in Hm.
    apply not_true_is_false in Hm. rewrite Hm. reflexivity.
Qed.

Lemma serve_canary_status_witness :
  (snd (serve_canary default_config (sample_env 0) (sample_request "PATCH" [])
                     "tok" empty_state)
   = (if String.eqb (req_method (sample_request "PATCH" [])) "HEAD"
      then BodyText "" else BodyText "OK", 200)
   /\ exists ev,
        events (fst (serve_canary default_config (sample_env 0)
                                  (sample_request "PATCH" []) "tok"
                                  empty_state))
        = events empty_state ++ [ev])
  /\ serve_canary default_config (sample_env 0) (sample_request "PROPFIND" [])
                  "tok" empty_state
     = (empty_state, (BodyErrorPage 405, 405)).
Proof.
  split.
  - apply (proj1 (serve_canary_status default_config (sample_env 0)
                    (sample_request "PATCH" []) "tok" empty_state)).
    + cbn. tauto.
    + reflexivity.
  - apply (proj2 (serve_canary_status default_config (sample_env 0)
                    (sample_request "PROPFIND" []) "tok" empty_state)).
    cbn. intuition discriminate.
Defined.

(** The part of the state that [canary] leaves to the token table. *)
Lemma canary_ignores_tokens cfg env request token st tbl :
  let st' := mkState (rate_counters st) tbl (events st) (alerts st) in
  snd (canary cfg env request token st')
  = snd (canary cfg env request token st)
  /\ events (fst (canary cfg env request token st'))
     = events (fst (canary cfg env request token st))
  /\ rate_counters (fst (canary cfg env request token st'))
     = rate_counters (fst (canary cfg env request token st)).
Proof.
  cbv zeta. unfold canary. cbn [rate_counters tokens events alerts].
  destruct (record_and_check_rate cfg (time_time env) token (rate_counters st))
    as [counters ok_rate].
  match goal with
  | |- context [match ?x with Ok _ => _ | Raise _ => _ end] => destruct x
  end; cbn; auto.
Qed.

(** C8, as stated, fails: a token that is known but deactivated and
    expired is reported with [token_exists = true]. *)
Lemma token_exists_ignores_active_and_expiry :
  let tbl := [mkToken "tok" (Some "alice") 0%Q (Some (inject_Z 1)) false None] in
  let st := mkState ∅ tbl [] [] in
  token_resolved_spec (inject_Z 5) "tok" tbl = false
  /\ map p_token_exists
         (alerts (fst (canary default_config (sample_env (inject_Z 5))
                              (sample_request "GET" []) "tok" st)))
     = [true].
Proof. split; vm_compute; reflexivity. Qed.

(** C8, amended. The lookup finds out only whether the token string is
    in the table, whatever the row's active flag and expiry; the answer
    goes into the alert payload ([token_exists], and [token_owner] from
    the first such row) and nowhere else: with any other token table the
    response, the stored Events and the rate counters are the same, so a
    hit on an unknown, expired or inactive token is stored like any
    other. *)
Theorem token_lookup_only_enriches (cfg : Config) (env : Env)
    (request : Request) (token : string) (st : State) :
  (forall tbl : list Token,
     let st' := mkState (rate_counters st) tbl (events st) (alerts st) in
     snd (canary cfg env request token st')
     = snd (canary cfg env request token st)
     /\ events (fst (canary cfg env request token st'))
        = events (fst (canary cfg env request token st))
     /\ rate_counters (fst (canary cfg env request token st'))
        = rate_counters (fst (canary cfg env request token st)))
  /\ (db_commit env = Ok tt ->
      exists (ev : Event) (payload : Payload),
        events (fst (canary cfg env request token st)) = events st ++ [ev]
        /\ alerts (fst (canary cfg env request token st))
           = alerts st ++ [payload]
        /\ snd (canary cfg env request token st) = Ok ("OK", 200)
        /\ (p_token_exists payload = true
            <-> exists t, In t (tokens st) /\ tk_token t = token)
        /\ p_token_owner payload
           = (match query_token token (tokens st) with
              | Some t => tk_owner t
              | None => None
              end)).
Proof.
  split; [intro tbl; apply canary_ignores_tokens|].
  intro Hc.
  destruct (canary_commit_ok cfg env request token st Hc)
    as (ev & payload & -> & _ & _ & _ & _ & _ & He & Ho & _).
  exists ev, payload. cbn [fst snd events alerts].
  repeat split; try assumption.
  - rewrite He. unfold query_token.
    destruct (find _ (tokens st)) as [t|] eqn:Ef; [|discriminate].
    intros _. apply find_some in Ef as [Hin Heq].
    apply String.eqb_eq in Heq. eauto.
  - intros [t [Hin Heq]]. rewrite He. unfold query_token.
    destruct (find _ (tokens st)) as [t'|] eqn:Ef; [reflexivity|].
    eapply find_none in Ef; [|exact Hin].
    rewrite Heq, String.eqb_refl in Ef. discriminate.
Qed.

Lemma token_lookup_only_enriches_witness :
  exists (ev : Event) (payload : Payload),
    events (fst (canary default_config (sample_env 0)
                        (sample_request "GET" []) "tok" empty_state))
    = events empty_state ++ [ev]
    /\ alerts (fst (canary default_config (sample_env 0)
                           (sample_request "GET" []) "tok" empty_state))
       = alerts empty_state ++ [payload]
    /\ snd (canary default_config (sample_env 0)
                   (sample_request "GET" []) "tok" empty_state)
       = Ok ("OK", 200)
    /\ (p_token_exists payload = true
        <-> exists t, In t (tokens empty_state) /\ tk_token t = "tok")
    /\ p_token_owner payload
       = (match query_token "tok" (tokens empty_state) with
          | Some t => tk_owner t
          | None => None
          end).
Proof.
  apply (proj2 (token_lookup_only_enriches default_config (sample_env 0)
                  (sample_request "GET" []) "tok" empty_state)).
  reflexivity.
Defined.

End Handler.

(** ** Version 6 addresses *)

Section IPv6.

Import Ipaddress App.

Lemma find_skip_ge middle : forall i acc k,
  find_skip i middle acc = inr (Some k) -> acc = Some k \/ (i <= k)%nat.
Proof.
  induction middle as [|p rest IH]; intros i acc k H; cbn [find_skip] in H.
  - left. congruence.
  - destruct (Py.is_empty p).
    + destruct acc as [a|]; [discriminate|].
      apply IH in H as [H | H]; [right; injection H as <-; lia | right; lia].
    + apply IH in H as [H | H]; [left; exact H | right; lia].
Qed.

Lemma parse_hextets_head acc p rest n :
  parse_hextets acc (p :: rest) = Some n ->
  exists v, v6_parse_hextet p = Some v.
Proof.
  cbn [parse_hextets]. destruct (v6_parse_hextet p) as [v|]; [|discriminate].
  intros _. exists v. reflexivity.
Qed.

Lemma is_empty_true s : Py.is_empty s = true -> s = EmptyString.
Proof. destruct s; [reflexivity | discriminate]. Qed.

(** In an accepted list of parts the first one is empty or a hextet. *)
Lemma v6_parts_first parts n :
  v6_parts_to_int parts = Some n ->
  first_part parts = EmptyString
  \/ exists v, v6_parse_hextet (first_part parts) = Some v.
Proof.
  unfold v6_parts_to_int.
  destruct (9 <? List.length parts)%nat; [discriminate|].
  destruct (find_skip 1 (removelast (tl parts)) None) as [|[k|]] eqn:Hs;
    [discriminate| |].
  - destruct (Py.is_empty (first_part parts)) eqn:He;
      [intros _; left; apply is_empty_true, He|].
    apply find_skip_ge in Hs as [Hs | Hk]; [discriminate|].
    destruct (if Py.is_empty (last_part parts) then _ else _) as [lo|];
      [|discriminate].
    match goal with |- (if ?b then _ else _) = _ -> _ => destruct b end;
      [discriminate|].
    destruct parts as [|p rest]; [discriminate He|].
    destruct k as [|k]; [lia|]. cbn [firstn].
    destruct (parse_hextets 0 (p :: firstn k rest)) as [hi|] eqn:Hp;
      [|discriminate].
    intros _. right. eapply parse_hextets_head, Hp.
  - destruct (Nat.eqb (List.length parts) 8); [|discriminate]. cbn [negb].
    destruct (Py.is_empty (first_part parts)) eqn:He; [discriminate|].
    destruct (Py.is_empty (last_part parts)); [discriminate|].
    destruct parts as [|p rest]; [discriminate He|].
    intro Hp. right. eapply parse_hextets_head, Hp.
Qed.

Lemma v6_expand_first parts parts' :
  (3 <= List.length parts)%nat ->
  v6_expand_ipv4_suffix parts = Some parts' ->
  first_part parts' = first_part parts.
Proof.
  unfold v6_expand_ipv4_suffix. intro Hlen.
  destruct (Py.contains "." (last_part parts)); [|congruence].
  destruct (IPv4Address (last_part parts)) as [v|]; [|discriminate].
  intro H. injection H as <-.
  destruct parts as [|p0 [|p1 rest]]; simpl in Hlen; try lia.
  reflexivity.
Qed.

Lemma v6_first_part addr n :
  v6_ip_int_from_string addr = Some n ->
  Py.contains ":" addr = true
  /\ (List.hd EmptyString (Py.split ":" addr) = EmptyString
      \/ exists v, v6_parse_hextet (List.hd EmptyString (Py.split ":" addr))
                   = Some v).
Proof.
  unfold v6_ip_int_from_string.
  destruct (Py.is_empty addr); [discriminate|].
  destruct (List.length (Py.split ":" addr) <? 3)%nat eqn:Hlen; [discriminate|].
  apply Nat.ltb_ge in Hlen.
  destruct (v6_expand_ipv4_suffix (Py.split ":" addr)) as [parts'|] eqn:He;
    [|discriminate].
  intro H. split; [apply split_several; lia|].
  apply v6_parts_first in H.
  rewrite (v6_expand_first _ _ Hlen He) in H. exact H.
Qed.

Lemma forallb_not_contains (f : ascii -> bool) (c : ascii) (s : string) :
  f c = false -> forallb f (Py.chars s) = true -> Py.contains c s = false.
Proof.
  intros Hc. unfold Py.contains.
  induction s as [|c' r IH]; simpl; [reflexivity|].
  rewrite andb_true_iff. intros [H1 H2]. rewrite (IH H2), orb_false_r.
  destruct (Py.ascii_eqb c c') eqn:E; [|reflexivity].
  apply Ascii.eqb_eq in E. congruence.
Qed.

Lemma hextet_no_dot p v :
  v6_parse_hextet p = Some v -> Py.contains "." p = false.
Proof.
  unfold v6_parse_hextet.
  destruct (forallb Py.is_hex_digit (Py.chars p)) eqn:E; [|discriminate].
  intros _. eapply forallb_not_contains; [|exact E]. reflexivity.
Qed.

Lemma partition_spec sep s : forall a found b,
  Py.partition sep s = (a, found, b) ->
  if found then s = (a ++ String sep b)%string else s = a.
Proof.
  induction s as [|c r IH]; intros a found b H; cbn [Py.partition] in H.
  - injection H as <- <- <-. reflexivity.
  - destruct (Py.ascii_eqb c sep) eqn:E.
    + injection H as <- <- <-. apply Ascii.eqb_eq in E. subst. reflexivity.
    + destruct (Py.partition sep r) as [[a' f'] b'] eqn:Ep.
      injection H as <- <- <-. specialize (IH _ _ _ eq_refl).
      destruct f'; rewrite IH at 1; reflexivity.
Qed.

Lemma hd_split_append sep s1 s2 :
  Py.contains sep s1 = true ->
  List.hd EmptyString (Py.split sep (s1 ++ s2)%string)
  = List.hd EmptyString (Py.split sep s1).
Proof.
  unfold Py.contains. induction s1 as [|c r IH]; [discriminate|].
  change (String c r ++ s2)%string with (String c (r ++ s2)%string).
  cbn [Py.chars existsb Py.split]. rewrite ascii_eqb_sym.
  destruct (Py.ascii_eqb c sep); [reflexivity|]. cbn [orb]. intro H.
  specialize (IH H).
  destruct (Py.split sep (r ++ s2)%string) as [|h t] eqn:E1;
    [exfalso; eapply split_not_nil, E1|].
  destruct (Py.split sep r) as [|h' t'] eqn:E2;
    [exfalso; eapply split_not_nil, E2|].
  simpl in *. congruence.
Qed.

(** The text before the first colon of a version 6 address string is not
    a version 4 address. *)
Lemma ipv6_first_part_not_v4 s n sc :
  IPv6Address s = Some (n, sc) ->
  IPv4Address (List.hd EmptyString (Py.split ":" s)) = None.
Proof.
  unfold IPv6Address, split_scope_id.
  destruct (Py.contains "/" s); [discriminate|].
  destruct (Py.partition "%" s) as [[addr found] scope] eqn:Ep.
  apply partition_spec in Ep.
  assert (Hv : forall m, v6_ip_int_from_string addr = Some m ->
                         IPv4Address (List.hd EmptyString (Py.split ":" s)) = None).
  { intros m Hm. apply v6_first_part in Hm as [Hc Hp].
    assert (Hhd : List.hd EmptyString (Py.split ":" s)
                  = List.hd EmptyString (Py.split ":" addr)).
    { destruct found; subst s; [apply hd_split_append, Hc | reflexivity]. }
    rewrite Hhd. destruct Hp as [-> | [v Hv]]; [reflexivity|].
    destruct (IPv4Address _) as [k|] eqn:E; [|reflexivity].
    apply IPv4Address_has_dot in E. apply hextet_no_dot in Hv. congruence. }
  destruct found; cbn [negb].
  - destruct (Py.is_empty scope || Py.contains "%" scope); [discriminate|].
    destruct (v6_ip_int_from_string addr) as [m|] eqn:Em; [|discriminate].
    intros _. eapply Hv. reflexivity.
  - destruct (v6_ip_int_from_string addr) as [m|] eqn:Em; [|discriminate].
    intros _. eapply Hv. reflexivity.
Qed.

Lemma IPv4Address_first_digit s n :
  IPv4Address s = Some n ->
  match s with
  | String c _ => Py.is_decimal_digit c = true
  | EmptyString => False
  end.
Proof.
  unfold IPv4Address, v4_ip_int_from_string.
  destruct (Py.contains "/" s); [discriminate|].
  destruct s as [|c r]; [discriminate|]. cbn [Py.is_empty].
  destruct (Nat.eqb _ 4); [|discriminate]. cbn [negb].
  pose proof (hd_split_prefix "." (String c r)) as Hp. cbv zeta in Hp.
  destruct (Py.split "." (String c r)) as [|o rest] eqn:Es;
    [exfalso; eapply split_not_nil, Es|].
  cbn [from_octets List.hd] in *. unfold v4_parse_octet.
  destruct o as [|c' o']; [discriminate|]. cbn [Py.is_empty Py.chars forallb].
  destruct (Py.is_decimal_digit c') eqn:Hd; [|discriminate].
  intros _.
  destruct Hp as [Hp | [x Hp]]; injection Hp as -> _; exact Hd.
Qed.

Lemma not_v4_not_private s :
  IPv4Address s = None -> is_private_ip_str s = false.
Proof.
  intro H. apply not_true_iff_false. intro Hp.
  apply is_private_ip_str_iff in Hp as [n [Hn _]]. congruence.
Qed.

Lemma host_suspicious_of request h :
  headers_get "Host" (req_headers request) = Some h ->
  host_suspicious request
  = (if Py.is_empty h then false
     else let host_part := List.hd EmptyString (Py.split ":" h) in
          if Py.is_empty host_part then false
          else is_private_ip_str host_part).
Proof.
  intro H. unfold host_suspicious, host_part_of. rewrite H.
  change (default "" (Some h)) with h.
  destruct (Py.is_empty h); reflexivity.
Qed.

(** C10. The private-range test is a version 4 test: on every string
    that parses as a version 6 address, [is_private_ip_str] is false, and
    so is the check on the client address; a [Host] header that is such
    a string, bare or in brackets with an optional port, does not make
    the hit suspicious either.  The loopback [::1], the link-local
    [fe80::1] and the IPv4-mapped [::ffff:10.0.0.1] are such strings. *)
Theorem ipv6_never_private :
  (forall (s : string) (n : Z) (sc : option string),
     ip_address s = Some (IPv6Address_obj n sc) ->
     is_private_ip_str s = false
     /\ addr_suspicious (Some s) = false
     /\ (forall request : Request,
           headers_get "Host" (req_headers request) = Some s ->
           host_suspicious request = false)
     /\ (forall (request : Request) (port : string),
           headers_get "Host" (req_headers request)
             = Some ("[" ++ s ++ "]" ++ port)%string ->
           host_suspicious request = false))
  /\ ip_address "::1" = Some (IPv6Address_obj 1 None)
  /\ ip_address "fe80::1"
       = Some (IPv6Address_obj 338288524927261089654018896841347694593 None)
  /\ ip_address "::ffff:10.0.0.1" = Some (IPv6Address_obj 281470849515521 None).
Proof.
  split; [|repeat split; vm_compute; reflexivity].
  intros s n sc Hs. apply ip_address_v6_inv in Hs as [H4 H6].
  pose proof (not_v4_not_private _ H4) as Hp.
  split; [exact Hp|]. split; [|split].
  - rewrite addr_suspicious_some, Hp. apply bool_decide_eq_false.
    intro Hm. apply metadata_parse in Hm as [k Hk]. congruence.
  - intros request Hh. rewrite (host_suspicious_of _ _ Hh).
    destruct (Py.is_empty s); [reflexivity|]. cbv zeta.
    destruct (Py.is_empty _); [reflexivity|].
    eapply not_v4_not_private, ipv6_first_part_not_v4, H6.
  - intros request port Hh. rewrite (host_suspicious_of _ _ Hh).
    change ("[" ++ s ++ "]" ++ port)%string
      with (String "[" (s ++ "]" ++ port))%string.
    cbn [Py.is_empty Py.split Py.ascii_eqb Ascii.eqb Bool.eqb]. cbv zeta.
    assert (Hb : forall x, IPv4Address (String "[" x) = None).
    { intro x. destruct (IPv4Address (String "[" x)) as [k|] eqn:E;
        [|reflexivity].
      apply IPv4Address_first_digit in E. discriminate E. }
    destruct (Py.split ":" (s ++ "]" ++ port)%string) as [|h t];
      cbn [List.hd Py.is_empty]; apply not_v4_not_private, Hb.
Qed.

Lemma ipv6_never_private_witness :
  is_private_ip_str "::ffff:10.0.0.1" = false
  /\ addr_suspicious (Some "::ffff:10.0.0.1") = false
  /\ (forall request : Request,
        headers_get "Host" (req_headers request) = Some "::ffff:10.0.0.1" ->
        host_suspicious request = false)
  /\ (forall (request : Request) (port : string),
        headers_get "Host" (req_headers request)
          = Some ("[" ++ "::ffff:10.0.0.1" ++ "]" ++ port)%string ->
        host_suspicious request = false).
Proof.
  apply (proj1 ipv6_never_private "::ffff:10.0.0.1" 281470849515521 None).
  reflexivity.
Defined.

End IPv6.


(** ** The rate limiter *)

Section RateLimiter.

Import App.

Lemma Qltb_lt (a b : Q) : Qltb a b = true <-> (a < b)%Q.
Proof.
  unfold Qltb. rewrite negb_true_iff, <- not_true_iff_false, Qle_bool_iff.
  split; intro H; [apply Qnot_le_lt | apply Qlt_not_le]; exact H.
Qed.

Lemma Qltb_ge (a b : Q) : Qltb a b = false <-> (b <= a)%Q.
Proof.
  unfold Qltb. rewrite negb_false_iff, Qle_bool_iff. reflexivity.
Qed.

Lemma expired_prefix_le ws arr : (expired_prefix ws arr <= List.length arr)%nat.
Proof.
  induction arr as [|t arr IH]; simpl; [lia|].
  destruct (Qltb t ws); simpl; lia.
Qed.

Lemma expired_prefix_take ws arr :
  Forall (fun t => (t < ws)%Q) (take (expired_prefix ws arr) arr).
Proof.
  induction arr as [|t arr IH]; simpl; [constructor|].
  destruct (Qltb t ws) eqn:E; simpl; [|constructor].
  constructor; [apply Qltb_lt, E | exact IH].
Qed.

Lemma expired_prefix_drop ws arr :
  match drop (expired_prefix ws arr) arr with
  | [] => True
  | t :: _ => (ws <= t)%Q
  end.
Proof.
  induction arr as [|t arr IH]; simpl; [exact I|].
  destruct (Qltb t ws) eqn:E; simpl; [exact IH | apply Qltb_ge, E].
Qed.

Lemma trim_is_drop (i : nat) (arr : list Q) :
  (if Nat.eqb i 0 then arr else drop i arr) = drop i arr.
Proof. destruct i; reflexivity. Qed.

(** On a sequence appended in clock order, whatever follows a kept
    element is kept as well. *)
Lemma sorted_drop_all_kept ws arr :
  Sorted Qle arr ->
  Forall (fun t => (ws <= t)%Q) (drop (expired_prefix ws arr) arr).
Proof.
  induction arr as [|t arr IH]; intro Hs; simpl; [constructor|].
  apply Sorted_inv in Hs as [Hs Hhd].
  destruct (Qltb t ws) eqn:E; simpl; [apply IH, Hs|].
  apply Qltb_ge in E.
  assert (Hst : StronglySorted Qle (t :: arr)).
  { apply Sorted_StronglySorted; [intros x y z; apply Qle_trans|].
    constructor; assumption. }
  apply StronglySorted_inv in Hst as [_ Hall].
  constructor; [exact E|].
  eapply Forall_impl; [|exact Hall]. simpl. intros a Ha. lra.
Qed.

Lemma record_and_check_rate_unfold cfg now token counters :
  record_and_check_rate cfg now token counters =
  let arr := default [] (counters !! token) in
  let kept := drop (expired_prefix (now - inject_Z (RATE_LIMIT_WINDOW cfg)) arr) arr in
  (<[token := kept ++ [now]]> counters,
   Z.of_nat (List.length (kept ++ [now])) <=? RATE_LIMIT_MAX cfg).
Proof. unfold record_and_check_rate. rewrite trim_is_drop. reflexivity. Qed.

(** Nothing is trimmed when the front of the sequence is inside the
    window. *)
Lemma expired_prefix_none ws arr :
  match arr with [] => True | t :: _ => (ws <= t)%Q end ->
  expired_prefix ws arr = O.
Proof.
  destruct arr as [|t arr]; simpl; [reflexivity|].
  intro H. apply Qltb_ge in H. rewrite H. reflexivity.
Qed.

Lemma expired_prefix_all ws arr :
  Forall (fun t => (t < ws)%Q) arr -> expired_prefix ws arr = List.length arr.
Proof.
  induction 1 as [|t arr Ht _ IH]; simpl; [reflexivity|].
  apply Qltb_lt in Ht. rewrite Ht, IH. reflexivity.
Qed.

Lemma within_window_head w pre now rest :
  within_window w (pre ++ now :: rest) ->
  match pre with [] => True | t :: _ => (now - w <= t)%Q end.
Proof.
  destruct pre as [|t pre]; [trivial|].
  intro H. apply Forall_inv in H. simpl in H.
  apply Forall_inv_tail in H.
  apply Forall_app in H as [_ H]. apply Forall_inv in H. exact H.
Qed.

(** Calls whose readings stay within one window trim nothing: the
    [k]-th of them sees [k] entries more than were there. *)
Lemma run_rate_within_window cfg token times : forall pre counters,
  default [] (counters !! token) = pre ->
  within_window (inject_Z (RATE_LIMIT_WINDOW cfg)) (pre ++ times) ->
  let '(c, oks) := run_rate cfg token times counters in
  default [] (c !! token) = pre ++ times /\
  oks = map (fun k => Z.of_nat (List.length pre + S k) <=? RATE_LIMIT_MAX cfg)
            (seq 0 (List.length times)).
Proof.
  induction times as [|now rest IH]; intros pre counters Hpre Hw;
    cbn [run_rate].
  - rewrite app_nil_r. auto.
  - rewrite record_and_check_rate_unfold. cbv zeta. rewrite Hpre.
    rewrite (expired_prefix_none _ pre) by (eapply within_window_head, Hw).
    cbn [drop].
    specialize (IH (pre ++ [now]) (<[token := pre ++ [now]]> counters)).
    destruct (run_rate cfg token rest _) as [c2 oks].
    destruct IH as [IH1 IH2].
    + rewrite lookup_insert_eq. reflexivity.
    + rewrite <- app_assoc. exact Hw.
    + rewrite <- app_assoc in IH1. split; [exact IH1|].
      rewrite drop_0. cbn [List.length seq map]. f_equal.
      * rewrite length_app. cbn [List.length]. reflexivity.
      * rewrite IH2, <- seq_shift, map_map.
        apply map_ext. intro k. rewrite length_app. cbn [List.length].
        replace (List.length pre + 1 + S k)%nat
          with (List.length pre + S (S k))%nat by lia.
        reflexivity.
Qed.

(** C3. Each call of the rate-limit check for a key takes
    [window_start = now - WINDOW], removes from the front of the key's
    sequence the timestamps strictly older than [window_start] and no
    others (on a sequence in clock order nothing older is left behind),
    appends [now], and allows the hit iff the new length is at most
    [MAX].  With [WINDOW = 60] and [MAX = 20], of 21 calls on a fresh key
    within one window the first 20 are allowed and the 21st is denied,
    and a call made after the window has gone by is allowed again. *)
Theorem record_and_check_rate_sliding_window (cfg : Config) (token : string) :
  (forall (now : Q) (counters : gmap string (list Q)),
     let arr := default [] (counters !! token) in
     let window_start := (now - inject_Z (RATE_LIMIT_WINDOW cfg))%Q in
     exists expired kept : list Q,
       arr = expired ++ kept /\
       Forall (fun t => (t < window_start)%Q) expired /\
       match kept with [] => True | t :: _ => (window_start <= t)%Q end /\
       (Sorted Qle arr -> Forall (fun t => (window_start <= t)%Q) kept) /\
       fst (record_and_check_rate cfg now token counters)
         = <[token := kept ++ [now]]> counters /\
       (snd (record_and_check_rate cfg now token counters) = true
        <-> Z.of_nat (List.length (kept ++ [now])) <= RATE_LIMIT_MAX cfg))
  /\
  (RATE_LIMIT_WINDOW cfg = 60 -> RATE_LIMIT_MAX cfg = 20 ->
   forall (counters : gmap string (list Q)) (times : list Q) (later : Q),
     counters !! token = None ->
     List.length times = 21%nat ->
     within_window (inject_Z 60) times ->
     Forall (fun t => (t + inject_Z 60 < later)%Q) times ->
     let '(c, oks) := run_rate cfg token times counters in
     oks = repeat true 20 ++ [false] /\
     snd (record_and_check_rate cfg later token c) = true).
Proof.
  split.
  - intros now counters arr window_start.
    exists (take (expired_prefix window_start arr) arr),
           (drop (expired_prefix window_start arr) arr).
    rewrite record_and_check_rate_unfold. cbv zeta. cbn [fst snd].
    fold arr. fold window_start.
    split; [symmetry; apply take_drop|].
    split; [apply expired_prefix_take|].
    split; [apply expired_prefix_drop|].
    split; [apply sorted_drop_all_kept|].
    split; [reflexivity|]. apply Z.leb_le.
  - intros Hw Hm counters times later Hfresh Hlen Hwin Hlater.
    pose proof (run_rate_within_window cfg token times [] counters) as H.
    rewrite Hfresh, Hw in H. specialize (H eq_refl Hwin).
    destruct (run_rate cfg token times counters) as [c oks].
    destruct H as [Hc Hoks]. split.
    + rewrite Hoks, Hlen, Hm. reflexivity.
    + rewrite record_and_check_rate_unfold. cbv zeta. cbn [snd].
      rewrite Hc, Hw, Hm. cbn [app].
      rewrite expired_prefix_all.
      * rewrite drop_all. reflexivity.
      * eapply Forall_impl; [|exact Hlater]. simpl. intros t Ht. lra.
Qed.

Lemma record_and_check_rate_sliding_window_witness :
  let '(c, oks) :=
    run_rate default_config "tok"
             (map (fun k => inject_Z (Z.of_nat k)) (seq 0 21)) ∅ in
  oks = repeat true 20 ++ [false] /\
  snd (record_and_check_rate default_config (inject_Z 81) "tok" c) = true.
Proof.
  apply (proj2 (record_and_check_rate_sliding_window default_config "tok")
               eq_refl eq_refl ∅ _ (inject_Z 81)).
  - reflexivity.
  - reflexivity.
  - unfold within_window. cbn [map seq].
    repeat (apply Forall_cons || apply Forall_nil); vm_compute; congruence.
  - cbn [map seq].
    repeat (apply Forall_cons || apply Forall_nil); vm_compute; congruence.
Defined.

End RateLimiter.

(** ** Rate-limit denial and the stored Event *)

Section RateDenial.

Import App.

Lemma expired_prefix_app ws a b :
  Forall (fun t => (ws <= t)%Q) b ->
  expired_prefix ws (a ++ b) = expired_prefix ws a.
Proof.
  intro Hb. induction a as [|t a IH]; cbn [app expired_prefix].
  - apply expired_prefix_none. destruct Hb; [exact I | assumption].
  - destruct (Qltb t ws); [rewrite IH|]; reflexivity.
Qed.

Lemma within_window_done w done now rest :
  within_window w (done ++ now :: rest) ->
  Forall (fun t => (now - w <= t)%Q) done.
Proof.
  unfold within_window. intro H.
  apply List.Forall_forall. intros t Ht.
  rewrite List.Forall_forall in H.
  specialize (H t (in_or_app _ _ _ (or_introl Ht))).
  rewrite List.Forall_forall in H.
  apply (H now). apply in_or_app. right. left. reflexivity.
Qed.

Lemma within_window_mono w w' ts :
  (w <= w')%Q -> within_window w ts -> within_window w' ts.
Proof.
  unfold within_window. intros Hw H.
  eapply Forall_impl; [|exact H]. cbv beta. intros t Ht.
  eapply Forall_impl; [|exact Ht]. cbv beta. intros t' Ht'. lra.
Qed.

(** A burst of accepted requests for one token whose clock readings stay
    within the window: every one is stored and answered, the entries of
    the burst are never trimmed, and a hit that finds more than [MAX]
    entries is stored as suspicious. *)
Lemma serve_all_burst cfg token reqs : forall st pre done,
  default [] (rate_counters st !! token) = pre ++ done ->
  within_window (inject_Z (RATE_LIMIT_WINDOW cfg))
                (done ++ map (fun er => time_time (fst er)) reqs) ->
  Forall (fun er => db_commit (fst er) = Ok tt
                    /\ In (req_method (snd er)) canary_methods) reqs ->
  exists evs : list Event,
    events (fst (serve_all cfg token reqs st)) = events st ++ evs
    /\ snd (serve_all cfg token reqs st)
       = map (fun er => (on_the_wire (req_method (snd er)) (BodyText "OK"),
                         200)) reqs
    /\ List.length evs = List.length reqs
    /\ forall (k : nat) (ev : Event),
         evs !! k = Some ev ->
         RATE_LIMIT_MAX cfg < Z.of_nat (List.length done + k + 1) ->
         ev_suspicious ev = true.
Proof.
  induction reqs as [|[env r] rest IH]; intros st pre done Hpre Hw Hall.
  - exists []. cbn. rewrite app_nil_r. repeat split; auto.
    intros k ev Hk. destruct k; discriminate Hk.
  - apply Forall_inv in Hall as Hhd. apply Forall_inv_tail in Hall.
    cbn [fst snd] in Hhd. destruct Hhd as [Hc Hm].
    cbn [map fst] in Hw.
    cbn [serve_all]. unfold serve_canary.
    apply method_listed in Hm. rewrite Hm.
    destruct (canary_commit_ok cfg env r token st Hc)
      as (ev & payload & -> & _ & _ & _ & _ & Hsusp & _).
    rewrite record_and_check_rate_unfold in Hsusp. cbv zeta in Hsusp.
    cbn [snd] in Hsusp.
    rewrite record_and_check_rate_unfold. cbv zeta. cbn [fst].
    rewrite Hpre in *.
    pose proof (within_window_done _ _ _ _ Hw) as Hdone.
    rewrite (expired_prefix_app _ pre done Hdone) in *.
    set (i := expired_prefix
                (time_time env - inject_Z (RATE_LIMIT_WINDOW cfg)) pre) in *.
    assert (Hi : (i <= List.length pre)%nat) by apply expired_prefix_le.
    rewrite (drop_app_le pre done i Hi) in *.
    set (st1 := mkState _ _ _ _).
    specialize (IH st1 (drop i pre) (done ++ [time_time env])).
    destruct IH as (evs & He & Hr & Hl & Hs).
    + subst st1. cbn [rate_counters]. rewrite lookup_insert_eq.
      cbn [default]. rewrite <- app_assoc. reflexivity.
    + rewrite <- app_assoc. exact Hw.
    + exact Hall.
    + destruct (serve_all cfg token rest st1) as [st2 resps].
      cbn [fst snd] in *. exists (ev :: evs).
      split; [rewrite He; subst st1; cbn [events];
              rewrite <- app_assoc; reflexivity|].
      split; [cbn [map snd]; rewrite Hr; reflexivity|].
      split; [cbn [List.length]; rewrite Hl; reflexivity|].
      intros k ev' Hk Hmax. destruct k as [|k].
      * injection Hk as <-. rewrite Hsusp.
        apply orb_true_iff. right. apply negb_true_iff, Z.leb_gt.
        rewrite !length_app. cbn [List.length]. lia.
      * apply (Hs k ev' Hk). rewrite length_app. cbn [List.length]. lia.
Qed.

(** C4. A denial by the rate limiter rejects nothing: an accepted request
    whose commit goes through is answered 200 "OK" and stored, and its
    Event is suspicious iff its address or Host check is, or the limiter
    denied the hit.  With [WINDOW = 60] and [MAX = 20], 25 such requests
    for one token within one second are all stored and answered 200
    "OK" (HEAD without the body), and the last five are stored as
    suspicious whatever their addresses. *)
Theorem rate_denial_only_flags (cfg : Config) (token : string) :
  (forall (env : Env) (request : Request) (st : State),
     db_commit env = Ok tt ->
     In (req_method request) canary_methods ->
     snd (serve_canary cfg env request token st)
     = (on_the_wire (req_method request) (BodyText "OK"), 200)
     /\ exists ev : Event,
          events (fst (serve_canary cfg env request token st))
          = events st ++ [ev]
          /\ ev_suspicious ev
             = (addr_suspicious (derive_remote_addr request)
                || host_suspicious request)
               || negb (snd (record_and_check_rate cfg (time_time env) token
                                                   (rate_counters st))))
  /\ (RATE_LIMIT_WINDOW cfg = 60 -> RATE_LIMIT_MAX cfg = 20 ->
      forall (st : State) (reqs : list (Env * Request)),
        List.length reqs = 25%nat ->
        within_window (inject_Z 1) (map (fun er => time_time (fst er)) reqs) ->
        Forall (fun er => db_commit (fst er) = Ok tt
                          /\ In (req_method (snd er)) canary_methods) reqs ->
        exists evs : list Event,
          events (fst (serve_all cfg token reqs st)) = events st ++ evs
          /\ List.length evs = 25%nat
          /\ snd (serve_all cfg token reqs st)
             = map (fun er => (on_the_wire (req_method (snd er))
                                           (BodyText "OK"), 200)) reqs
          /\ Forall (fun resp => snd resp = 200)
                    (snd (serve_all cfg token reqs st))
          /\ List.length (snd (serve_all cfg token reqs st)) = 25%nat
          /\ Forall (fun ev => ev_suspicious ev = true) (drop 20 evs)).
Proof.
  split.
  - intros env request st Hc Hm. unfold serve_canary.
    apply method_listed in Hm. rewrite Hm.
    destruct (canary_commit_ok cfg env request token st Hc)
      as (ev & payload & -> & _ & _ & _ & _ & Hsusp & _).
    cbn [fst snd events]. split; [reflexivity|]. exists ev. auto.
  - intros Hw Hmax st reqs Hlen Hwin Hall.
    destruct (serve_all_burst cfg token reqs st
                (default [] (rate_counters st !! token)) [])
      as (evs & He & Hr & Hl & Hs).
    + rewrite app_nil_r. reflexivity.
    + rewrite Hw. cbn [app]. eapply within_window_mono; [|exact Hwin].
      unfold inject_Z, Qle. cbn. lia.
    + exact Hall.
    + exists evs. split; [exact He|]. split; [congruence|].
      split; [exact Hr|]. split; [|split].
      * rewrite Hr. apply List.Forall_map, List.Forall_forall.
        intros er _. reflexivity.
      * rewrite Hr, length_map. exact Hlen.
      * apply List.Forall_forall. intros ev Hin.
        apply list_elem_of_In, list_elem_of_lookup in Hin as [k Hk].
        rewrite lookup_drop in Hk. apply (Hs _ _ Hk).
        rewrite Hmax. cbn [List.length]. lia.
Qed.

Lemma rate_denial_only_flags_witness :
  let reqs := repeat (sample_env 0, sample_request "POST" []) 25 in
  exists evs : list Event,
    events (fst (serve_all default_config "tok" reqs empty_state))
    = events empty_state ++ evs
    /\ List.length evs = 25%nat
    /\ snd (serve_all default_config "tok" reqs empty_state)
       = map (fun er => (on_the_wire (req_method (snd er)) (BodyText "OK"),
                         200)) reqs
    /\ Forall (fun resp => snd resp = 200)
              (snd (serve_all default_config "tok" reqs empty_state))
    /\ List.length (snd (serve_all default_config "tok" reqs empty_state))
       = 25%nat
    /\ Forall (fun ev => ev_suspicious ev = true) (drop 20 evs).
Proof.
  apply (proj2 (rate_denial_only_flags default_config "tok") eq_refl eq_refl
               empty_state).
  - reflexivity.
  - unfold within_window. cbn [map repeat fst sample_env time_time].
    repeat (apply Forall_cons || apply Forall_nil); vm_compute; congruence.
  - cbn [repeat].
    repeat (apply Forall_cons || apply Forall_nil);
      (split; [reflexivity | cbn; tauto]).
Defined.

End RateDenial.

(** ** The Host header *)

Section HostHeader.

Import Ipaddress App.

(** The range test does reach the [Host] header: a header whose text
    before the first colon parses into one of the private blocks makes
    the hit suspicious. *)
Lemma host_header_private_flagged request h n :
  headers_get "Host" (req_headers request) = Some h ->
  IPv4Address (List.hd EmptyString (Py.split ":" h)) = Some n ->
  in_private_block n ->
  host_suspicious request = true.
Proof.
  intros Hh Hp Hb. rewrite (host_suspicious_of _ _ Hh).
  destruct h as [|c r]; [discriminate Hp|]. cbn [Py.is_empty]. cbv zeta.
  destruct (List.hd EmptyString (Py.split ":" (String c r))) as [|c' r'] eqn:E;
    [discriminate Hp|].
  cbn [Py.is_empty]. apply is_private_ip_str_iff. eauto.
Qed.

(** C2: a [Host] header that names the metadata literal 100.100.100.200
    does not make the Event suspicious, although the same string as
    client address does; the two literals inside 169.254.0.0/16 and any
    private address are caught by the range test, port suffix or not. *)
Theorem host_header_metadata_literal_not_flagged :
  let request := sample_request "GET" [("Host", "100.100.100.200:8080")] in
  addr_suspicious (Some "100.100.100.200") = true
  /\ host_part_of request = "100.100.100.200"
  /\ host_suspicious request = false
  /\ map ev_suspicious
         (events (fst (canary default_config (sample_env 0) request "tok"
                              empty_state)))
     = [false]
  /\ host_suspicious (sample_request "GET" [("Host", "169.254.169.254:80")])
     = true
  /\ host_suspicious (sample_request "GET" [("Host", "169.254.170.2")]) = true
  /\ host_suspicious (sample_request "GET" [("Host", "10.0.0.1:8443")]) = true.
Proof. repeat split; vm_compute; reflexivity. Qed.

End HostHeader.

(** ** Body capture *)

Section BodyCapture.

Import Utf8 App.

Lemma decode_from_length bs : forall skip,
  (List.length (decode_from skip bs) <= List.length bs)%nat.
Proof.
  induction bs as [|ch rest IH]; intro skip; cbn [decode_from List.length];
    [lia|].
  destruct skip as [|k].
  - destruct (decode_one ch rest) as [cp n]. cbn [List.length].
    specialize (IH (n - 1)%nat). lia.
  - specialize (IH k). lia.
Qed.

Lemma lor_shiftl_add a b k :
  0 <= k -> 0 <= b < 2 ^ k -> Z.lor (Z.shiftl a k) b = a * 2 ^ k + b.
Proof.
  intros Hk Hb.
  assert (Hl : Z.land (Z.shiftl a k) b = 0).
  { apply Z.bits_inj'. intros i Hi. rewrite Z.land_spec, Z.bits_0.
    destruct (Z.lt_ge_cases i k) as [Hlt | Hge].
    - rewrite Z.shiftl_spec_low by lia. reflexivity.
    - rewrite <- (Z.mod_small b (2 ^ k)) by lia.
      rewrite Z.mod_pow2_bits_high by lia. apply andb_false_r. }
  rewrite <- (Z.lxor_lor _ _ Hl), <- (Z.add_nocarry_lxor _ _ Hl).
  rewrite Z.shiftl_mul_pow2 by lia. reflexivity.
Qed.

Lemma lor_mul_add y c k :
  0 <= k -> 0 <= c < 2 ^ k -> Z.lor (y * 2 ^ k) c = y * 2 ^ k + c.
Proof.
  intros Hk Hc. rewrite <- Z.shiftl_mul_pow2 by lia.
  rewrite lor_shiftl_add by lia. rewrite Z.shiftl_mul_pow2 by lia.
  reflexivity.
Qed.

Lemma cp2_val ch ch2 :
  cp2 ch ch2 = Z.to_N ((ch mod 32) * 64 + ch2 mod 64).
Proof.
  unfold cp2. f_equal.
  change 31 with (Z.ones 5). change 63 with (Z.ones 6).
  rewrite !Z.land_ones by lia. change (2 ^ 5) with 32. change (2 ^ 6) with 64.
  rewrite lor_shiftl_add; change (2 ^ 6) with 64; [reflexivity | lia |].
  apply Z.mod_pos_bound. lia.
Qed.

Lemma cp3_val ch ch2 ch3 :
  cp3 ch ch2 ch3
  = Z.to_N ((ch mod 16) * 4096 + (ch2 mod 64) * 64 + ch3 mod 64).
Proof.
  unfold cp3. f_equal.
  change 15 with (Z.ones 4). change 63 with (Z.ones 6).
  rewrite !Z.land_ones by lia. change (2 ^ 4) with 16. change (2 ^ 6) with 64.
  pose proof (Z.mod_pos_bound ch2 64 ltac:(lia)) as H2.
  pose proof (Z.mod_pos_bound ch3 64 ltac:(lia)) as H3.
  rewrite (Z.shiftl_mul_pow2 (ch2 mod 64)) by lia. change (2 ^ 6) with 64.
  rewrite lor_shiftl_add by (change (2 ^ 12) with 4096; lia).
  change (2 ^ 12) with 4096.
  replace (ch mod 16 * 4096 + ch2 mod 64 * 64)
    with ((ch mod 16 * 64 + ch2 mod 64) * 2 ^ 6)
    by (change (2 ^ 6) with 64; lia).
  rewrite lor_mul_add by (change (2 ^ 6) with 64; lia). reflexivity.
Qed.

Lemma cp4_val ch ch2 ch3 ch4 :
  cp4 ch ch2 ch3 ch4
  = Z.to_N ((ch mod 8) * 262144 + (ch2 mod 64) * 4096 + (ch3 mod 64) * 64
            + ch4 mod 64).
Proof.
  unfold cp4. f_equal.
  change 7 with (Z.ones 3). change 63 with (Z.ones 6).
  rewrite !Z.land_ones by lia. change (2 ^ 3) with 8. change (2 ^ 6) with 64.
  pose proof (Z.mod_pos_bound ch2 64 ltac:(lia)) as H2.
  pose proof (Z.mod_pos_bound ch3 64 ltac:(lia)) as H3.
  pose proof (Z.mod_pos_bound ch4 64 ltac:(lia)) as H4.
  rewrite (Z.shiftl_mul_pow2 (ch2 mod 64)), (Z.shiftl_mul_pow2 (ch3 mod 64))
    by lia.
  change (2 ^ 6) with 64. change (2 ^ 12) with 4096.
  rewrite lor_shiftl_add by (change (2 ^ 18) with 262144; lia).
  change (2 ^ 18) with 262144.
  replace (ch mod 8 * 262144 + ch2 mod 64 * 4096)
    with ((ch mod 8 * 64 + ch2 mod 64) * 2 ^ 12)
    by (change (2 ^ 12) with 4096; lia).
  rewrite lor_mul_add by (change (2 ^ 12) with 4096; lia).
  change (2 ^ 12) with 4096.
  replace ((ch mod 8 * 64 + ch2 mod 64) * 4096 + ch3 mod 64 * 64)
    with (((ch mod 8 * 64 + ch2 mod 64) * 64 + ch3 mod 64) * 2 ^ 6)
    by (change (2 ^ 6) with 64; lia).
  rewrite lor_mul_add by (change (2 ^ 6) with 64; lia).
  change (2 ^ 6) with 64. lia.
Qed.

Lemma scalar_of_Z v :
  v < 55296 \/ 57343 < v <= 1114111 -> is_scalar_value (Z.to_N v) = true.
Proof.
  intro H. unfold is_scalar_value.
  apply andb_true_iff. split.
  - apply orb_true_iff. destruct H as [H | H];
      [left; apply N.ltb_lt | right; apply N.ltb_lt]; lia.
  - apply N.leb_le. lia.
Qed.

Lemma continuation_range ch :
  is_continuation_byte ch = true -> 128 <= ch < 192.
Proof.
  unfold is_continuation_byte. rewrite andb_true_iff, Z.leb_le, Z.ltb_lt.
  tauto.
Qed.

Ltac split_decode :=
  repeat match goal with
         | |- context [if ?b then _ else _] => destruct b eqn:?
         | |- context [match ?l with [] => _ | _ :: _ => _ end] =>
             destruct l
         end.

Ltac to_props :=
  repeat match goal with
         | H : _ || _ = false |- _ => apply orb_false_iff in H as [? ?]
         | H : negb _ = false |- _ => apply negb_false_iff in H
         | H : (if ?b then _ else _) = false |- _ => destruct b eqn:?
         | H : is_continuation_byte _ = true |- _ =>
             apply continuation_range in H
         | H : (_ <? _) = true |- _ => apply Z.ltb_lt in H
         | H : (_ <? _) = false |- _ => apply Z.ltb_ge in H
         | H : (_ =? _) = true |- _ => apply Z.eqb_eq in H
         | H : (_ =? _) = false |- _ => apply Z.eqb_neq in H
         end.

(** Whatever the bytes, one round of the decoder writes a scalar value:
    no surrogate, nothing above U+10FFFF. *)
Lemma decode_one_scalar ch rest :
  is_scalar_value (fst (decode_one ch rest)) = true.
Proof.
  unfold decode_one. split_decode; cbn [fst]; try reflexivity; to_props;
    rewrite ?cp2_val, ?cp3_val, ?cp4_val; apply scalar_of_Z;
    Z.div_mod_to_equations; lia.
Qed.

Lemma decode_from_scalar bs : forall skip,
  Forall (fun cp => is_scalar_value cp = true) (decode_from skip bs).
Proof.
  induction bs as [|ch rest IH]; intro skip; cbn [decode_from];
    [constructor|].
  destruct skip as [|k]; [|apply IH].
  pose proof (decode_one_scalar ch rest) as H.
  destruct (decode_one ch rest) as [cp n]. constructor; [exact H | apply IH].
Qed.

(** Bytes below 128 decode to themselves. *)
Lemma decode_from_ascii bs :
  Forall (fun b => 0 <= b < 128) bs -> decode_from 0 bs = map Z.to_N bs.
Proof.
  induction 1 as [|b bs Hb _ IH]; [reflexivity|].
  cbn [decode_from map]. unfold decode_one.
  destruct (b <? 128) eqn:E; [|apply Z.ltb_ge in E; lia].
  cbn [Nat.sub]. rewrite IH. reflexivity.
Qed.

(** The shape of a well-formed sequence. *)
Lemma encode_one_cases cp :
  is_scalar_value cp = true ->
  (exists c, encode_one cp = [c] /\ 0 <= c < 128)
  \/ (exists l c1, encode_one cp = [l; c1]
                   /\ 194 <= l < 224 /\ 128 <= c1 < 192)
  \/ (exists l c1 c2, encode_one cp = [l; c1; c2]
                      /\ 224 <= l < 240 /\ 128 <= c1 < 192 /\ 128 <= c2 < 192
                      /\ (l = 224 -> 160 <= c1) /\ (l = 237 -> c1 < 160))
  \/ (exists l c1 c2 c3, encode_one cp = [l; c1; c2; c3]
                         /\ 240 <= l < 245 /\ 128 <= c1 < 192
                         /\ 128 <= c2 < 192 /\ 128 <= c3 < 192
                         /\ (l = 240 -> 144 <= c1) /\ (l = 244 -> c1 < 144)).
Proof.
  unfold is_scalar_value, encode_one. cbv zeta.
  rewrite andb_true_iff, orb_true_iff, !N.ltb_lt, N.leb_le. intros [Hs Hm].
  pose proof (N2Z.is_nonneg cp) as H0.
  set (c := Z.of_N cp) in *.
  assert (Hs' : c < 55296 \/ 57343 < c) by (subst c; lia).
  assert (Hm' : c <= 1114111) by (subst c; lia).
  clear Hs Hm.
  destruct (c <? 128) eqn:E1; [apply Z.ltb_lt in E1|apply Z.ltb_ge in E1].
  - left. exists c. split; [reflexivity | lia].
  - destruct (c <? 2048) eqn:E2; [apply Z.ltb_lt in E2|apply Z.ltb_ge in E2].
    + right; left. eexists. eexists. split; [reflexivity|].
      Z.div_mod_to_equations. lia.
    + destruct (c <? 65536) eqn:E3;
        [apply Z.ltb_lt in E3|apply Z.ltb_ge in E3].
      * right; right; left. do 3 eexists. split; [reflexivity|].
        Z.div_mod_to_equations. lia.
      * right; right; right. do 4 eexists. split; [reflexivity|].
        Z.div_mod_to_equations. lia.
Qed.

Lemma wf1_encode c :
  0 <= c < 128 ->
  is_scalar_value (Z.to_N c) = true /\ encode_one (Z.to_N c) = [c].
Proof.
  intro H. split; [apply scalar_of_Z; lia|].
  unfold encode_one. cbv zeta. rewrite Z2N.id by lia.
  destruct (c <? 128) eqn:E; [reflexivity | apply Z.ltb_ge in E; lia].
Qed.

Lemma wf2_encode l c1 :
  194 <= l < 224 -> 128 <= c1 < 192 ->
  is_scalar_value (cp2 l c1) = true /\ encode_one (cp2 l c1) = [l; c1].
Proof.
  intros Hl H1. rewrite cp2_val.
  set (v := l mod 32 * 64 + c1 mod 64).
  assert (Hv : 128 <= v < 2048 /\ v / 64 = l - 192 /\ v mod 64 = c1 - 128)
    by (subst v; Z.div_mod_to_equations; lia).
  destruct Hv as (Hr & Hd & Hm).
  split; [apply scalar_of_Z; lia|].
  unfold encode_one. cbv zeta. rewrite Z2N.id by lia.
  destruct (v <? 128) eqn:E1; [apply Z.ltb_lt in E1; lia|].
  destruct (v <? 2048) eqn:E2; [|apply Z.ltb_ge in E2; lia].
  rewrite Hd, Hm. f_equal; [lia|]. f_equal. lia.
Qed.

Lemma wf3_encode l c1 c2 :
  224 <= l < 240 -> 128 <= c1 < 192 -> 128 <= c2 < 192 ->
  (l = 224 -> 160 <= c1) -> (l = 237 -> c1 < 160) ->
  is_scalar_value (cp3 l c1 c2) = true
  /\ encode_one (cp3 l c1 c2) = [l; c1; c2].
Proof.
  intros Hl H1 H2 Ha Hb. rewrite cp3_val.
  set (v := l mod 16 * 4096 + c1 mod 64 * 64 + c2 mod 64).
  assert (Hv : 2048 <= v < 65536 /\ (v < 55296 \/ 57343 < v)
               /\ v / 4096 = l - 224 /\ (v / 64) mod 64 = c1 - 128
               /\ v mod 64 = c2 - 128)
    by (subst v; Z.div_mod_to_equations; lia).
  destruct Hv as (Hr & Hs & Hd & Hd1 & Hm).
  split; [apply scalar_of_Z; lia|].
  unfold encode_one. cbv zeta. rewrite Z2N.id by lia.
  destruct (v <? 128) eqn:E1; [apply Z.ltb_lt in E1; lia|].
  destruct (v <? 2048) eqn:E2; [apply Z.ltb_lt in E2; lia|].
  destruct (v <? 65536) eqn:E3; [|apply Z.ltb_ge in E3; lia].
  rewrite Hd, Hd1, Hm. repeat (f_equal; try lia).
Qed.

Lemma wf4_encode l c1 c2 c3 :
  240 <= l < 245 -> 128 <= c1 < 192 -> 128 <= c2 < 192 -> 128 <= c3 < 192 ->
  (l = 240 -> 144 <= c1) -> (l = 244 -> c1 < 144) ->
  is_scalar_value (cp4 l c1 c2 c3) = true
  /\ encode_one (cp4 l c1 c2 c3) = [l; c1; c2; c3].
Proof.
  intros Hl H1 H2 H3 Ha Hb. rewrite cp4_val.
  set (v := l mod 8 * 262144 + c1 mod 64 * 4096 + c2 mod 64 * 64 + c3 mod 64).
  assert (Hv : 65536 <= v <= 1114111
               /\ v / 262144 = l - 240 /\ (v / 4096) mod 64 = c1 - 128
               /\ (v / 64) mod 64 = c2 - 128 /\ v mod 64 = c3 - 128)
    by (subst v; Z.div_mod_to_equations; lia).
  destruct Hv as (Hr & Hd & Hd1 & Hd2 & Hm).
  split; [apply scalar_of_Z; lia|].
  unfold encode_one. cbv zeta. rewrite Z2N.id by lia.
  destruct (v <? 128) eqn:E1; [apply Z.ltb_lt in E1; lia|].
  destruct (v <? 2048) eqn:E2; [apply Z.ltb_lt in E2; lia|].
  destruct (v <? 65536) eqn:E3; [apply Z.ltb_lt in E3; lia|].
  rewrite Hd, Hd1, Hd2, Hm. repeat (f_equal; try lia).
Qed.

(** Decoding what [encode_one] wrote gives the scalar value back and
    goes on behind it. *)
Lemma decode_encode_one cp rest :
  is_scalar_value cp = true ->
  decode_from 0 (encode_one cp ++ rest) = cp :: decode_from 0 rest.
Proof.
  unfold is_scalar_value, encode_one. cbv zeta.
  rewrite andb_true_iff, orb_true_iff, !N.ltb_lt, N.leb_le. intros [Hs Hm].
  pose proof (N2Z.is_nonneg cp) as H0.
  assert (Hcp : Z.to_N (Z.of_N cp) = cp) by apply N2Z.id.
  set (c := Z.of_N cp) in *.
  assert (Hs' : c < 55296 \/ 57343 < c) by (subst c; lia).
  assert (Hm' : c <= 1114111) by (subst c; lia).
  clear Hs Hm.
  destruct (c <? 128) eqn:E1; [|apply Z.ltb_ge in E1].
  - cbn [app decode_from]. unfold decode_one. rewrite E1.
    cbn [Nat.sub]. rewrite Hcp. reflexivity.
  - destruct (c <? 2048) eqn:E2; [apply Z.ltb_lt in E2|apply Z.ltb_ge in E2].
    + cbn [app decode_from]. unfold decode_one.
      assert ((192 + c / 64 <? 128) = false) as ->
        by (apply Z.ltb_ge; Z.div_mod_to_equations; lia).
      assert ((192 + c / 64 <? 194) = false) as ->
        by (apply Z.ltb_ge; Z.div_mod_to_equations; lia).
      assert ((192 + c / 64 <? 224) = true) as ->
        by (apply Z.ltb_lt; Z.div_mod_to_equations; lia).
      assert (is_continuation_byte (128 + c mod 64) = true) as ->
        by (unfold is_continuation_byte; apply andb_true_iff;
            rewrite Z.leb_le, Z.ltb_lt; Z.div_mod_to_equations; lia).
      cbn [Nat.sub decode_from]. f_equal. rewrite cp2_val, <- Hcp. f_equal.
      Z.div_mod_to_equations. lia.
    + destruct (c <? 65536) eqn:E3;
        [apply Z.ltb_lt in E3|apply Z.ltb_ge in E3].
      * cbn [app decode_from]. unfold decode_one.
        assert ((224 + c / 4096 <? 128) = false) as ->
          by (apply Z.ltb_ge; Z.div_mod_to_equations; lia).
        assert ((224 + c / 4096 <? 194) = false) as ->
          by (apply Z.ltb_ge; Z.div_mod_to_equations; lia).
        assert ((224 + c / 4096 <? 224) = false) as ->
          by (apply Z.ltb_ge; Z.div_mod_to_equations; lia).
        assert ((224 + c / 4096 <? 240) = true) as ->
          by (apply Z.ltb_lt; Z.div_mod_to_equations; lia).
        assert (is_continuation_byte (128 + (c / 64) mod 64) = true) as ->
          by (unfold is_continuation_byte; apply andb_true_iff;
              rewrite Z.leb_le, Z.ltb_lt; Z.div_mod_to_equations; lia).
        assert (is_continuation_byte (128 + c mod 64) = true) as ->
          by (unfold is_continuation_byte; apply andb_true_iff;
              rewrite Z.leb_le, Z.ltb_lt; Z.div_mod_to_equations; lia).
        assert ((if 128 + (c / 64) mod 64 <? 160
                 then 224 + c / 4096 =? 224
                 else 224 + c / 4096 =? 237) = false) as ->.
        { destruct (128 + (c / 64) mod 64 <? 160) eqn:E;
            [apply Z.ltb_lt in E | apply Z.ltb_ge in E];
            apply Z.eqb_neq; Z.div_mod_to_equations; lia. }
        cbn [negb orb Nat.sub decode_from]. f_equal.
        rewrite cp3_val, <- Hcp. f_equal. Z.div_mod_to_equations. lia.
      * cbn [app decode_from]. unfold decode_one.
        assert ((240 + c / 262144 <? 128) = false) as ->
          by (apply Z.ltb_ge; Z.div_mod_to_equations; lia).
        assert ((240 + c / 262144 <? 194) = false) as ->
          by (apply Z.ltb_ge; Z.div_mod_to_equations; lia).
        assert ((240 + c / 262144 <? 224) = false) as ->
          by (apply Z.ltb_ge; Z.div_mod_to_equations; lia).
        assert ((240 + c / 262144 <? 240) = false) as ->
          by (apply Z.ltb_ge; Z.div_mod_to_equations; lia).
        assert ((240 + c / 262144 <? 245) = true) as ->
          by (apply Z.ltb_lt; Z.div_mod_to_equations; lia).
        assert (is_continuation_byte (128 + (c / 4096) mod 64) = true) as ->
          by (unfold is_continuation_byte; apply andb_true_iff;
              rewrite Z.leb_le, Z.ltb_lt; Z.div_mod_to_equations; lia).
        assert (is_continuation_byte (128 + (c / 64) mod 64) = true) as ->
          by (unfold is_continuation_byte; apply andb_true_iff;
              rewrite Z.leb_le, Z.ltb_lt; Z.div_mod_to_equations; lia).
        assert (is_continuation_byte (128 + c mod 64) = true) as ->
          by (unfold is_continuation_byte; apply andb_true_iff;
              rewrite Z.leb_le, Z.ltb_lt; Z.div_mod_to_equations; lia).
        assert ((if 128 + (c / 4096) mod 64 <? 144
                 then 240 + c / 262144 =? 240
                 else 240 + c / 262144 =? 244) = false) as ->.
        { destruct (128 + (c / 4096) mod 64 <? 144) eqn:E;
            [apply Z.ltb_lt in E | apply Z.ltb_ge in E];
            apply Z.eqb_neq; Z.div_mod_to_equations; lia. }
        cbn [negb orb Nat.sub decode_from]. f_equal.
        rewrite cp4_val, <- Hcp. f_equal. Z.div_mod_to_equations. lia.
Qed.

Lemma continuation_range_false ch :
  is_continuation_byte ch = false -> ~ 128 <= ch < 192.
Proof.
  unfold is_continuation_byte. rewrite andb_false_iff, Z.leb_gt, Z.ltb_ge. lia.
Qed.

Ltac branch_props :=
  repeat match goal with
         | H : _ || _ = false |- _ => apply orb_false_iff in H as [? ?]
         | H : _ || _ = true |- _ => apply orb_true_iff in H as [H | H]
         | H : negb _ = false |- _ => apply negb_false_iff in H
         | H : negb _ = true |- _ => apply negb_true_iff in H
         | H : (if ?b then _ else _) = false |- _ => destruct b eqn:?
         | H : (if ?b then _ else _) = true |- _ => destruct b eqn:?
         | H : is_continuation_byte _ = true |- _ =>
             apply continuation_range in H
         | H : is_continuation_byte _ = false |- _ =>
             apply continuation_range_false in H
         | H : (_ <? _) = true |- _ => apply Z.ltb_lt in H
         | H : (_ <? _) = false |- _ => apply Z.ltb_ge in H
         | H : (_ =? _) = true |- _ => apply Z.eqb_eq in H
         | H : (_ =? _) = false |- _ => apply Z.eqb_neq in H
         end.

Ltac by_shape He Hs :=
  destruct (encode_one_cases _ Hs)
    as [(?c & Hc & ?) | [(?l & ?c1 & Hc & ?)
        | [(?l & ?c1 & ?c2 & Hc & ?) | (?l & ?c1 & ?c2 & ?c3 & Hc & ?)]]];
  rewrite Hc in He; cbn [app] in He;
  first [discriminate He | injection He; intros; subst; lia].

Ltac no_char :=
  let cp := fresh "cp" in let r := fresh "r" in
  let Hs := fresh "Hs" in let He := fresh "He" in
  intros (cp & r & Hs & He); cbn [app] in He; by_shape He Hs.

Ltac no_begin :=
  let cp := fresh "cp" in let r := fresh "r" in
  let Hs := fresh "Hs" in let He := fresh "He" in
  intros (cp & r & Hs & He); cbn [app] in He; by_shape He Hs.

Ltac replaced seg rest' :=
  exists seg, rest'; split; [reflexivity|]; split; [reflexivity|]; right;
  split; [reflexivity|]; split; [cbn [app]; no_char|]; split;
  [|let b := fresh "b" in let r := fresh "r" in let Hr := fresh "Hr" in
    intros b r Hr;
    first [ discriminate Hr | subst; no_begin
          | injection Hr; intros; subst; no_begin ]].

(** One round of the decoder against the standard's wording: the bytes
    it consumes are either the encoding of the scalar value it writes,
    or, where no well-formed sequence stands at the front, the longest
    front part that begins one (one byte if there is none), for which
    it writes U+FFFD. *)
Lemma decode_one_spec ch rest :
  0 <= ch ->
  exists seg rest',
    ch :: rest = seg ++ rest'
    /\ List.length seg = snd (decode_one ch rest)
    /\ ((is_scalar_value (fst (decode_one ch rest)) = true
         /\ seg = encode_one (fst (decode_one ch rest)))
        \/ (fst (decode_one ch rest) = REPLACEMENT
            /\ ~ starts_char (seg ++ rest')
            /\ (List.length seg = 1%nat \/ begins_char seg)
            /\ (forall b r, rest' = b :: r -> ~ begins_char (seg ++ [b])))).
Proof.
  intro H0. unfold decode_one.
  destruct (ch <? 128) eqn:E1; branch_props.
  { exists [ch], rest. split; [reflexivity|]. split; [reflexivity|]. left.
    cbn [fst]. destruct (wf1_encode ch ltac:(lia)) as [? ?]. auto. }
  destruct (ch <? 194) eqn:E2; branch_props.
  { replaced [ch] rest. left. reflexivity. }
  destruct (ch <? 224) eqn:E3; branch_props.
  { destruct rest as [|ch2 rest2].
    - replaced [ch] (@nil Z). left; reflexivity.
    - destruct (is_continuation_byte ch2) eqn:C2; branch_props.
      + exists [ch; ch2], rest2. split; [reflexivity|]. split; [reflexivity|].
        left. cbn [fst]. destruct (wf2_encode ch ch2) as [? ?]; auto; lia.
      + replaced [ch] (ch2 :: rest2). left; reflexivity. }
  destruct (ch <? 240) eqn:E4; branch_props.
  { destruct rest as [|ch2 rest2].
    - replaced [ch] (@nil Z). left; reflexivity.
    - destruct (negb (is_continuation_byte ch2)
                || (if ch2 <? 160 then ch =? 224 else ch =? 237)) eqn:C2.
      + branch_props; (replaced [ch] (ch2 :: rest2); left; reflexivity).
      + branch_props;
          (destruct rest2 as [|ch3 rest3];
           [ replaced [ch; ch2] (@nil Z); right;
             exists (cp3 ch ch2 128), [128];
             destruct (wf3_encode ch ch2 128) as [? ?]; auto; lia
           | destruct (is_continuation_byte ch3) eqn:C3; branch_props;
             [ exists [ch; ch2; ch3], rest3; split; [reflexivity|];
               split; [reflexivity|]; left; cbn [fst];
               destruct (wf3_encode ch ch2 ch3) as [? ?]; auto; lia
             | replaced [ch; ch2] (ch3 :: rest3); right;
               exists (cp3 ch ch2 128), [128];
               destruct (wf3_encode ch ch2 128) as [? ?]; auto; lia ] ]). }
  destruct (ch <? 245) eqn:E5; branch_props.
  { destruct rest as [|ch2 rest2].
    - replaced [ch] (@nil Z). left; reflexivity.
    - destruct (negb (is_continuation_byte ch2)
                || (if ch2 <? 144 then ch =? 240 else ch =? 244)) eqn:C2.
      + branch_props; (replaced [ch] (ch2 :: rest2); left; reflexivity).
      + branch_props;
          (destruct rest2 as [|ch3 rest3];
           [ replaced [ch; ch2] (@nil Z); right;
             exists (cp4 ch ch2 128 128), [128; 128];
             destruct (wf4_encode ch ch2 128 128) as [? ?]; auto; lia
           | destruct (negb (is_continuation_byte ch3)) eqn:C3; branch_props;
             [ replaced [ch; ch2] (ch3 :: rest3); right;
               exists (cp4 ch ch2 128 128), [128; 128];
               destruct (wf4_encode ch ch2 128 128) as [? ?]; auto; lia
             | destruct rest3 as [|ch4 rest4];
               [ replaced [ch; ch2; ch3] (@nil Z); right;
                 exists (cp4 ch ch2 ch3 128), [128];
                 destruct (wf4_encode ch ch2 ch3 128) as [? ?]; auto; lia
               | destruct (is_continuation_byte ch4) eqn:C4; branch_props;
                 [ exists [ch; ch2; ch3; ch4], rest4; split; [reflexivity|];
                   split; [reflexivity|]; left; cbn [fst];
                   destruct (wf4_encode ch ch2 ch3 ch4) as [? ?]; auto; lia
                 | replaced [ch; ch2; ch3] (ch4 :: rest4); right;
                   exists (cp4 ch ch2 ch3 128), [128];
                   destruct (wf4_encode ch ch2 ch3 128) as [? ?]; auto; lia ] ] ] ]). }
  replaced [ch] rest. left; reflexivity.
Qed.

(** Every round consumes at least one byte. *)
Lemma decode_one_consumes ch rest : (1 <= snd (decode_one ch rest))%nat.
Proof.
  unfold decode_one.
  repeat match goal with
         | |- context [if ?b then _ else _] => destruct b
         | |- context [match ?l with [] => _ | _ :: _ => _ end] => destruct l
         end; cbn [snd]; lia.
Qed.

Lemma decode_from_drop bs : forall skip,
  decode_from skip bs = decode_from 0 (drop skip bs).
Proof.
  induction bs as [|ch rest IH]; intros [|k]; try reflexivity.
  cbn [decode_from drop]. apply IH.
Qed.

(** The decoding loop meets the specification on every byte string. *)
Lemma decode_from_replacing : forall (n : nat) (bs : list Z),
  (List.length bs <= n)%nat ->
  Forall (fun b => 0 <= b) bs ->
  decodes_replacing bs (decode_from 0 bs).
Proof.
  induction n as [|n IH]; intros bs Hn Hf.
  - destruct bs; [constructor | cbn in Hn; lia].
  - destruct bs as [|ch rest]; [constructor|].
    inversion Hf as [|? ? H0 Hf']; subst.
    destruct (decode_one_spec ch rest H0) as (seg & rest' & E & Hl & Hcase).
    pose proof (decode_one_consumes ch rest) as Hk.
    cbn [decode_from]. destruct (decode_one ch rest) as [cp k] eqn:D.
    cbn [fst snd] in *. rewrite decode_from_drop.
    destruct seg as [|s0 seg0]; [cbn in Hl; lia|].
    cbn [app List.length] in E, Hl. injection E as <- ->.
    assert (Hd : drop (k - 1) (seg0 ++ rest') = rest').
    { replace (k - 1)%nat with (List.length seg0) by lia.
      apply drop_app_length. }
    rewrite Hd.
    apply Forall_app in Hf' as [_ Hr].
    assert (Hrec : decodes_replacing rest' (decode_from 0 rest')).
    { apply IH; [|exact Hr]. cbn [List.length] in Hn.
      rewrite length_app in Hn. lia. }
    destruct Hcase as [[Hs He] | (-> & Hns & Hb & Hmax)].
    + change (ch :: seg0 ++ rest') with ((ch :: seg0) ++ rest').
      rewrite He. apply dr_char; assumption.
    + change (ch :: seg0 ++ rest') with ((ch :: seg0) ++ rest').
      apply dr_replace; try assumption. discriminate.
Qed.

Lemma encode_one_nonempty cp : encode_one cp <> [].
Proof.
  unfold encode_one. cbv zeta.
  repeat match goal with
         | |- context [if ?b then _ else _] => destruct b
         end; discriminate.
Qed.

(** No well-formed sequence is the front part of another. *)
Lemma encode_one_prefix_free cp cp' r r' :
  is_scalar_value cp = true -> is_scalar_value cp' = true ->
  encode_one cp ++ r = encode_one cp' ++ r' -> cp = cp' /\ r = r'.
Proof.
  intros H H' E.
  pose proof (decode_encode_one cp r H) as D.
  rewrite E, (decode_encode_one cp' r' H') in D.
  injection D as -> _. split; [reflexivity|].
  apply app_inv_head in E. exact E.
Qed.

Lemma begins_char_prefix seg more :
  begins_char (seg ++ more) -> begins_char seg.
Proof.
  intros (cp & tail & H & E). exists cp, (more ++ tail).
  rewrite <- app_assoc in E. auto.
Qed.

Lemma replaced_part_longest seg rest seg' k :
  seg' <> [] ->
  List.length seg = 1%nat \/ begins_char seg ->
  (forall b r, k ++ rest = b :: r -> ~ begins_char (seg' ++ [b])) ->
  seg = seg' ++ k -> k = [].
Proof.
  intros Hne Hb Hmax ->. destruct k as [|b k']; [reflexivity|]. exfalso.
  apply (Hmax b (k' ++ rest)); [reflexivity|].
  destruct Hb as [Hl | Hb].
  - rewrite length_app in Hl. cbn [List.length] in Hl.
    destruct seg'; [congruence | cbn [List.length] in Hl; lia].
  - apply (begins_char_prefix _ k').
    rewrite <- app_assoc. exact Hb.
Qed.

Lemma decodes_replacing_inv bs out :
  decodes_replacing bs out ->
  (bs = [] /\ out = [])
  \/ (exists cp rest out',
        is_scalar_value cp = true /\ decodes_replacing rest out'
        /\ bs = encode_one cp ++ rest /\ out = cp :: out')
  \/ (exists seg rest out',
        seg <> [] /\ ~ starts_char (seg ++ rest)
        /\ (List.length seg = 1%nat \/ begins_char seg)
        /\ (forall b rest', rest = b :: rest' -> ~ begins_char (seg ++ [b]))
        /\ decodes_replacing rest out'
        /\ bs = seg ++ rest /\ out = REPLACEMENT :: out').
Proof.
  destruct 1 as [|cp rest out Hs Hr|seg rest out Hne Hns Hb Hmax Hr].
  - left. auto.
  - right; left. exists cp, rest, out. auto.
  - right; right. exists seg, rest, out. auto 10.
Qed.

(** The specification leaves no choice: a byte string has one permissive
    decoding. *)
Lemma decodes_replacing_unique bs out1 :
  decodes_replacing bs out1 ->
  forall out2, decodes_replacing bs out2 -> out1 = out2.
Proof.
  induction 1 as [|cp rest out Hs _ IH|seg rest out Hne Hns Hb Hmax _ IH];
    intros out2 H2;
    destruct (decodes_replacing_inv _ _ H2)
      as [[E ->]
         | [(cp' & rest' & out' & Hs' & Hr' & E & ->)
           | (seg' & rest' & out' & Hne' & Hns' & Hb' & Hmax' & Hr' & E & ->)]].
  - reflexivity.
  - symmetry in E. apply app_eq_nil in E as [E _].
    destruct (encode_one_nonempty _ E).
  - symmetry in E. apply app_eq_nil in E as [E _]. congruence.
  - apply app_eq_nil in E as [E _]. destruct (encode_one_nonempty _ E).
  - destruct (encode_one_prefix_free _ _ _ _ Hs Hs' E) as [<- <-].
    f_equal. apply IH. exact Hr'.
  - exfalso. apply Hns'. rewrite <- E. exists cp, rest. auto.
  - apply app_eq_nil in E as [E _]. congruence.
  - exfalso. apply Hns. rewrite E. exists cp', rest'. auto.
  - f_equal. apply IH.
    assert (Hseg : seg' = seg /\ rest' = rest).
    { apply app_eq_inv in E as [(k & E1 & E2) | (k & E1 & E2)].
      - subst rest'.
        pose proof (replaced_part_longest seg rest seg' k Hne' Hb Hmax' E1)
          as ->.
        rewrite app_nil_r in *. auto.
      - subst rest.
        pose proof (replaced_part_longest seg' rest' seg k Hne Hb' Hmax E1)
          as ->.
        rewrite app_nil_r in *. auto. }
    destruct Hseg as [-> ->]. exact Hr'.
Qed.

Lemma body_preview_of_data request :
  body_preview_of request
  = match req_get_data request with
    | Ok data => decode_replace (take 4096 data)
    | Raise _ => []
    end.
Proof.
  unfold body_preview_of.
  destruct (req_get_data request) as [data|e]; cbn; [|reflexivity].
  destruct (take 4096 data); reflexivity.
Qed.

(** C5. The stored preview is the permissive decoding of the first 4096
    bytes of the body, cut to 2000 characters.  Permissive decoding is
    pinned by its specification, not by the decoder: of the bytes kept,
    every well-formed UTF-8 sequence becomes the scalar value it encodes,
    every maximal ill-formed part becomes one U+FFFD, and there is exactly
    one text that fits this description; the preview is its first 2000
    characters.  So the preview never has more than 2000 characters, each
    of them a Unicode scalar value, bytes after the first 4096 have no
    influence, and a body of 10000 bytes is no exception.  A body whose
    reading fails leaves the preview empty.  On the bytes
    [61 ff e2 82 ac e2 82 62 c0 80 ed a0 80 f0 9f 98 80] the preview
    begins with [a], U+FFFD, U+20AC, U+FFFD, [b], five times U+FFFD and
    U+1F600. *)
Theorem body_preview_capped (cfg : Config) (env : Env) (request : Request)
    (token : string) (st : State) :
  db_commit env = Ok tt ->
  exists ev : Event,
    events (fst (canary cfg env request token st)) = events st ++ [ev]
    /\ ev_body_preview ev
       = take 2000 (match req_get_data request with
                    | Ok data => decode_replace (take 4096 data)
                    | Raise _ => []
                    end)
    /\ (List.length (ev_body_preview ev) <= 2000)%nat
    /\ Forall (fun cp => is_scalar_value cp = true) (ev_body_preview ev)
    /\ (forall head tail : list byte,
          req_get_data request = Ok (head ++ tail) ->
          List.length head = 4096%nat ->
          ev_body_preview ev = take 2000 (decode_replace head))
    /\ (forall data : list byte,
          req_get_data request = Ok data ->
          Z.of_nat (List.length data) = 10000 ->
          List.length (take 4096 data) = 4096%nat
          /\ (List.length (ev_body_preview ev) <= 2000)%nat)
    /\ (forall data : list byte,
          req_get_data request = Ok data ->
          exists text : list N,
            decodes_replacing (map byte_val (take 4096 data)) text
            /\ (forall other : list N,
                  decodes_replacing (map byte_val (take 4096 data)) other ->
                  other = text)
            /\ ev_body_preview ev = take 2000 text)
    /\ (forall e : exn,
          req_get_data request = Raise e -> ev_body_preview ev = [])
    /\ (forall rest : list byte,
          req_get_data request
          = Ok ([x61; xff; xe2; x82; xac; xe2; x82; x62; xc0; x80;
                 xed; xa0; x80; xf0; x9f; x98; x80]%byte ++ rest) ->
          take 11 (ev_body_preview ev)
          = [97; 65533; 8364; 65533; 98; 65533; 65533; 65533; 65533; 65533;
             128512]%N).
Proof.
  intro Hc.
  destruct (canary_commit_ok cfg env request token st Hc)
    as (ev & payload & -> & _ & _ & Hb & _).
  exists ev. cbn [fst events]. rewrite body_preview_of_data in Hb.
  assert (Hlen : (List.length (ev_body_preview ev) <= 2000)%nat)
    by (rewrite Hb, length_take; lia).
  split; [reflexivity|]. split; [exact Hb|]. split; [exact Hlen|].
  split; [|split; [|split; [|split; [|split]]]].
  - rewrite Hb. apply Forall_take.
    destruct (req_get_data request); [apply decode_from_scalar | constructor].
  - intros head tail Hd Hl. rewrite Hb, Hd.
    rewrite take_app_length' by (symmetry; exact Hl). reflexivity.
  - intros data Hd Hl. split; [rewrite length_take; lia | exact Hlen].
  - intros data Hd. rewrite Hd in Hb.
    assert (Hspec : decodes_replacing (map byte_val (take 4096 data))
                      (decode_replace (take 4096 data))).
    { unfold decode_replace. apply (decode_from_replacing _ _ (le_n _)).
      apply Forall_forall. intros b Hin. apply in_map_iff in Hin as (x & <- & _).
      unfold byte_val. apply N2Z.is_nonneg. }
    exists (decode_replace (take 4096 data)).
    split; [exact Hspec|]. split; [|exact Hb].
    intros other Ho. exact (decodes_replacing_unique _ _ Ho _ Hspec).
  - intros e He. rewrite He in Hb. exact Hb.
  - intros rest Hd. rewrite Hb, Hd. vm_compute. reflexivity.
Qed.

Lemma body_preview_capped_witness :
  let request :=
    mkRequest "POST" "/c/tok" "/c/tok?" [] []
              (Ok ([x61; xff; xe2; x82; xac; xe2; x82; x62; xc0; x80;
                    xed; xa0; x80; xf0; x9f; x98; x80]%byte
                   ++ repeat "a"%byte (Z.to_nat 9983)))
              (Some "8.8.8.8") in
  exists ev : Event,
    events (fst (canary default_config (sample_env 0) request "tok"
                        empty_state))
    = events empty_state ++ [ev]
    /\ ev_body_preview ev
       = take 2000 (match req_get_data request with
                    | Ok data => decode_replace (take 4096 data)
                    | Raise _ => []
                    end)
    /\ (List.length (ev_body_preview ev) <= 2000)%nat
    /\ Forall (fun cp => is_scalar_value cp = true) (ev_body_preview ev)
    /\ (forall head tail : list byte,
          req_get_data request = Ok (head ++ tail) ->
          List.length head = 4096%nat ->
          ev_body_preview ev = take 2000 (decode_replace head))
    /\ (forall data : list byte,
          req_get_data request = Ok data ->
          Z.of_nat (List.length data) = 10000 ->
          List.length (take 4096 data) = 4096%nat
          /\ (List.length (ev_body_preview ev) <= 2000)%nat)
    /\ (forall data : list byte,
          req_get_data request = Ok data ->
          exists text : list N,
            decodes_replacing (map byte_val (take 4096 data)) text
            /\ (forall other : list N,
                  decodes_replacing (map byte_val (take 4096 data)) other ->
                  other = text)
            /\ ev_body_preview ev = take 2000 text)
    /\ (forall e : exn,
          req_get_data request = Raise e -> ev_body_preview ev = [])
    /\ (forall rest : list byte,
          req_get_data request
          = Ok ([x61; xff; xe2; x82; xac; xe2; x82; x62; xc0; x80;
                 xed; xa0; x80; xf0; x9f; x98; x80]%byte ++ rest) ->
          take 11 (ev_body_preview ev)
          = [97; 65533; 8364; 65533; 98; 65533; 65533; 65533; 65533; 65533;
             128512]%N).
Proof.
  intro request.
  apply (body_preview_capped default_config (sample_env 0) request "tok"
                             empty_state).
  reflexivity.
Defined.

End BodyCapture.

(** ** Address derivation *)

Section AddressDerivation.

Import App.

Lemma append_assoc (a b c : string) :
  ((a ++ b) ++ c)%string = (a ++ b ++ c)%string.
Proof.
  induction a as [|x a IH]; [reflexivity|].
  change (String x ((a ++ b) ++ c)%string = String x (a ++ b ++ c)%string).
  rewrite IH. reflexivity.
Qed.

Lemma append_empty_r (a : string) : (a ++ "")%string = a.
Proof.
  induction a as [|x a IH]; [reflexivity|].
  change (String x (a ++ "")%string = String x a). rewrite IH. reflexivity.
Qed.

Lemma lstrip_spec s :
  exists l, s = (l ++ Py.lstrip s)%string /\ all_space l
            /\ match Py.lstrip s with
               | String c _ => Py.isspace c = false
               | EmptyString => True
               end.
Proof.
  induction s as [|c r IH].
  - exists EmptyString. repeat split.
  - cbn [Py.lstrip]. destruct (Py.isspace c) eqn:E.
    + destruct IH as (l & Hl & Hs & Hh). exists (String c l).
      split; [rewrite Hl at 1; reflexivity|]. split; [|exact Hh].
      unfold all_space in *. cbn [Py.chars forallb]. rewrite E, Hs. reflexivity.
    + exists EmptyString. repeat split. exact E.
Qed.

Lemma rstrip_spec s :
  exists r, s = (Py.rstrip s ++ r)%string /\ all_space r
            /\ (Py.rstrip s = EmptyString
                \/ exists pre c,
                     Py.rstrip s = (pre ++ String c EmptyString)%string
                     /\ Py.isspace c = false).
Proof.
  induction s as [|c t IH].
  - exists EmptyString. repeat split. left. reflexivity.
  - destruct IH as (w & Ht & Hw & Hlast). cbn [Py.rstrip]. cbv zeta.
    destruct (Py.is_empty (Py.rstrip t)) eqn:Ee.
    + apply is_empty_true in Ee. destruct (Py.isspace c) eqn:Ec; cbn [andb].
      * exists (String c w). split; [|split; [|left; reflexivity]].
        -- rewrite Ht at 1. rewrite Ee. reflexivity.
        -- unfold all_space in *. cbn [Py.chars forallb]. rewrite Ec, Hw.
           reflexivity.
      * exists w. split; [rewrite Ht at 1; reflexivity|]. split; [exact Hw|].
        right. exists EmptyString, c. rewrite Ee. split; [reflexivity|exact Ec].
    + cbn [andb]. exists w. split; [rewrite Ht at 1; reflexivity|].
      split; [exact Hw|]. right.
      destruct Hlast as [He | (pre & c' & Hp & Hc')];
        [rewrite He in Ee; discriminate Ee|].
      exists (String c pre), c'. split; [rewrite Hp; reflexivity | exact Hc'].
Qed.

Lemma rstrip_head s :
  match Py.rstrip s with
  | String c _ => exists t, s = String c t
  | EmptyString => True
  end.
Proof.
  destruct s as [|c t]; [exact I|]. cbn [Py.rstrip]. cbv zeta.
  destruct (Py.is_empty (Py.rstrip t) && Py.isspace c); [exact I | eauto].
Qed.

(** [strip] trims. *)
Lemma strip_trimmed s : trimmed_of s (Py.strip s).
Proof.
  unfold trimmed_of, Py.strip.
  destruct (lstrip_spec s) as (l & Hl & Hls & Hhead).
  destruct (rstrip_spec (Py.lstrip s)) as (r & Hr & Hrs & Hlast).
  split; [|split; [|exact Hlast]].
  - exists l, r. split; [|split; assumption].
    rewrite Hl at 1. rewrite Hr at 1. reflexivity.
  - pose proof (rstrip_head (Py.lstrip s)) as H.
    destruct (Py.rstrip (Py.lstrip s)) as [|c t]; [exact I|].
    destruct H as [t' Ht]. rewrite Ht in Hhead. exact Hhead.
Qed.

(** The head of [split] is the first entry. *)
Lemma split_first_entry x :
  first_entry_of x (List.hd EmptyString (Py.split "," x)).
Proof.
  split; [apply hd_split_no_sep | apply (hd_split_prefix "," x)].
Qed.

(** C6. When an X-Forwarded-For header is present, the address recorded
    is its first comma-separated entry with white space trimmed off
    both ends, provided that is not empty; when the header is absent or
    that entry is empty, it is the peer address of the transport.  The
    Event stores the address so derived.  For the header
    [203.0.113.5, 10.0.0.1] and peer 192.0.2.9 it is 203.0.113.5. *)
Theorem remote_addr_derivation (request : Request) :
  (forall x : string,
     headers_get "X-Forwarded-For" (req_headers request) = Some x ->
     let entry := List.hd EmptyString (Py.split "," x) in
     let t := Py.strip entry in
     first_entry_of x entry /\ trimmed_of entry t
     /\ (t <> EmptyString -> derive_remote_addr request = Some t)
     /\ (t = EmptyString ->
         derive_remote_addr request = req_remote_addr request))
  /\ (headers_get "X-Forwarded-For" (req_headers request) = None ->
      derive_remote_addr request = req_remote_addr request)
  /\ (forall (cfg : Config) (env : Env) (token : string) (st : State),
        db_commit env = Ok tt ->
        exists ev : Event,
          events (fst (canary cfg env request token st)) = events st ++ [ev]
          /\ ev_remote_addr ev = derive_remote_addr request)
  /\ derive_remote_addr
       (mkRequest "GET" "/c/tok" "/c/tok?" []
                  [("X-Forwarded-For", "203.0.113.5, 10.0.0.1")] (Ok [])
                  (Some "192.0.2.9"))
     = Some "203.0.113.5".
Proof.
  split; [|split; [|split; [|reflexivity]]].
  - intros x Hx entry t.
    split; [apply split_first_entry|]. split; [apply strip_trimmed|].
    unfold derive_remote_addr. rewrite Hx. fold entry. fold t.
    destruct x as [|c x'].
    + subst t entry. cbn. split; [congruence | reflexivity].
    + cbn [Py.is_empty truthy].
      destruct t as [|c' t']; cbn [Py.is_empty negb];
        split; congruence.
  - intro Hx. unfold derive_remote_addr. rewrite Hx. reflexivity.
  - intros cfg env token st Hc.
    destruct (canary_commit_ok cfg env request token st Hc)
      as (ev & payload & -> & _ & _ & _ & Ha & _).
    exists ev. cbn [fst events]. auto.
Qed.

Lemma remote_addr_derivation_witness :
  let request :=
    mkRequest "GET" "/c/tok" "/c/tok?" []
              [("x-forwarded-for", "  , 10.0.0.1")] (Ok [])
              (Some "192.0.2.9") in
  derive_remote_addr request = Some "192.0.2.9"
  /\ exists ev : Event,
       events (fst (canary default_config (sample_env 0) request "tok"
                           empty_state))
       = events empty_state ++ [ev]
       /\ ev_remote_addr ev = derive_remote_addr request.
Proof.
  intro request.
  destruct (remote_addr_derivation request) as (H1 & _ & H3 & _).
  split.
  - apply (H1 "  , 10.0.0.1"); reflexivity.
  - apply H3. reflexivity.
Defined.

End AddressDerivation.

(** ** Best-effort steps *)

Section BestEffort.

Import App.





End BestEffort.

(* ================================================================== *)
(** * Further properties *)

(** ** The limiter under a clock that does not go back *)

Section RateWindow.

Import App.

Lemma ssorted_app_inv (l1 l2 : list Q) :
  StronglySorted Qle (l1 ++ l2) ->
  StronglySorted Qle l1 /\ StronglySorted Qle l2
  /\ Forall (fun a => Forall (fun b => (a <= b)%Q) l2) l1.
Proof.
  induction l1 as [|a l1 IH]; cbn [app]; intro H.
  - repeat split; [constructor | exact H | constructor].
  - apply StronglySorted_inv in H as [Hs Ha].
    destruct (IH Hs) as (H1 & H2 & H3).
    apply Forall_app in Ha as [Ha1 Ha2].
    repeat split; [constructor; assumption | exact H2 |].
    constructor; assumption.
Qed.

Lemma sorted_ssorted (l : list Q) : Sorted Qle l -> StronglySorted Qle l.
Proof.
  apply Sorted_StronglySorted. intros x y z. apply Qle_trans.
Qed.

Lemma filter_all_kept (ws : Q) (l : list Q) :
  Forall (fun t => (ws <= t)%Q) l ->
  List.filter (fun t => Qle_bool ws t) l = l.
Proof.
  induction 1 as [|t l Ht _ IH]; cbn [List.filter]; [reflexivity|].
  apply Qle_bool_iff in Ht. rewrite Ht, IH. reflexivity.
Qed.

(** On a sequence in clock order that was cut at [ws0], the trim at a
    later [ws] leaves exactly the entries that are not older than [ws]. *)
Lemma trim_filtered (ws0 ws : Q) (done : list Q) :
  (ws0 <= ws)%Q -> StronglySorted Qle done ->
  let arr := List.filter (fun t => Qle_bool ws0 t) done in
  drop (expired_prefix ws arr) arr = List.filter (fun t => Qle_bool ws t) done.
Proof.
  intros Hws. induction 1 as [|t d Hs IH Hall]; [reflexivity|].
  cbv zeta in *. cbn [List.filter].
  destruct (Qle_bool ws0 t) eqn:E0.
  - cbn [expired_prefix]. destruct (Qltb t ws) eqn:E.
    + apply Qltb_lt in E.
      assert (Qle_bool ws t = false) as ->.
      { apply not_true_iff_false. rewrite Qle_bool_iff. lra. }
      cbn [drop]. exact IH.
    + apply Qltb_ge in E. cbn [drop].
      assert (Qle_bool ws t = true) as -> by (apply Qle_bool_iff; exact E).
      apply Qle_bool_iff in E0.
      rewrite !filter_all_kept; [reflexivity | |];
        (eapply Forall_impl; [|exact Hall]); cbv beta; intros; lra.
  - assert (Qle_bool ws t = false) as ->.
    { apply not_true_iff_false. rewrite Qle_bool_iff.
      apply not_true_iff_false in E0. rewrite Qle_bool_iff in E0. lra. }
    exact IH.
Qed.

Lemma run_rate_app cfg token t1 t2 counters :
  run_rate cfg token (t1 ++ t2) counters
  = (fst (run_rate cfg token t2 (fst (run_rate cfg token t1 counters))),
     snd (run_rate cfg token t1 counters)
     ++ snd (run_rate cfg token t2 (fst (run_rate cfg token t1 counters)))).
Proof.
  revert counters. induction t1 as [|now t1 IH]; intro counters.
  - cbn. destruct (run_rate cfg token t2 counters). reflexivity.
  - cbn [app run_rate].
    destruct (record_and_check_rate cfg now token counters) as [c1 ok].
    rewrite IH. destruct (run_rate cfg token t1 c1) as [c2 oks].
    cbn [fst snd]. reflexivity.
Qed.

(** Under a clock that does not go back, the stored sequence is always
    the run so far cut at the last window start, and the decisions are
    those of [sliding_spec]. *)
Lemma run_rate_sorted cfg token times : forall done counters ws0,
  0 <= RATE_LIMIT_WINDOW cfg ->
  StronglySorted Qle (done ++ times) ->
  default [] (counters !! token)
  = List.filter (fun t => Qle_bool ws0 t) done ->
  match times with
  | now :: _ => (ws0 <= now - inject_Z (RATE_LIMIT_WINDOW cfg))%Q
  | [] => True
  end ->
  snd (run_rate cfg token times counters)
  = sliding_spec (inject_Z (RATE_LIMIT_WINDOW cfg)) (RATE_LIMIT_MAX cfg)
                 done times
  /\ default [] (fst (run_rate cfg token times counters) !! token)
     = List.filter
         (fun t => Qle_bool
                     (fold_left
                        (fun _ now => (now - inject_Z (RATE_LIMIT_WINDOW cfg))%Q)
                        times ws0) t)
         (done ++ times).
Proof.
  induction times as [|now rest IH]; intros done counters ws0 Hw Hs Harr Hws.
  - cbn. rewrite app_nil_r. auto.
  - cbn [run_rate sliding_spec fold_left].
    rewrite record_and_check_rate_unfold. cbv zeta. rewrite Harr.
    set (W := inject_Z (RATE_LIMIT_WINDOW cfg)) in *.
    assert (HW : (0 <= W)%Q).
    { subst W. unfold Qle, inject_Z. cbn. lia. }
    destruct (ssorted_app_inv _ _ Hs) as (Hd & Hn & _).
    apply StronglySorted_inv in Hn as [Hr Hnr].
    rewrite (trim_filtered ws0 (now - W) done Hws Hd).
    assert (Hnew : List.filter (fun t => Qle_bool (now - W) t) done ++ [now]
                   = List.filter (fun t => Qle_bool (now - W) t) (done ++ [now])).
    { rewrite List.filter_app. cbn [List.filter].
      assert (Qle_bool (now - W) now = true) as ->
        by (apply Qle_bool_iff; lra).
      reflexivity. }
    rewrite Hnew.
    specialize (IH (done ++ [now])
                   (<[token := List.filter (fun t => Qle_bool (now - W) t)
                                           (done ++ [now])]> counters)
                   (now - W)%Q Hw).
    destruct (run_rate cfg token rest _) as [c2 oks]. cbn [fst snd] in *.
    destruct IH as [IH1 IH2].
    + rewrite <- app_assoc. exact Hs.
    + rewrite lookup_insert_eq. reflexivity.
    + destruct rest as [|t rest']; [exact I|].
      apply Forall_inv in Hnr. lra.
    + rewrite IH1, IH2, <- app_assoc. auto.
Qed.

(** X1. From a key not seen before and under a clock that does not go
    back, the decisions of the limiter are those of the sliding window
    counted from scratch: the hit at [now] is allowed iff at most [MAX]
    of the hits so far, itself and the denied ones included, are not
    older than [now - WINDOW]. *)
Theorem run_rate_counts_trailing_window (cfg : Config) (token : string)
    (counters : gmap string (list Q)) (times : list Q) :
  0 <= RATE_LIMIT_WINDOW cfg ->
  counters !! token = None ->
  Sorted Qle times ->
  snd (run_rate cfg token times counters)
  = sliding_spec (inject_Z (RATE_LIMIT_WINDOW cfg)) (RATE_LIMIT_MAX cfg)
                 [] times.
Proof.
  intros Hw Hfresh Hs.
  apply (run_rate_sorted cfg token times [] counters
           (match times with
            | now :: _ => now - inject_Z (RATE_LIMIT_WINDOW cfg)
            | [] => 0
            end)%Q Hw).
  - apply sorted_ssorted, Hs.
  - rewrite Hfresh. reflexivity.
  - destruct times; [exact I | lra].
Qed.

Lemma run_rate_counts_trailing_window_witness :
  snd (run_rate (mkConfig None None None 25 None None 2 10) "tok"
                [inject_Z 0; inject_Z 1; inject_Z 2; inject_Z 12; inject_Z 12]
                ∅)
  = [true; true; false; true; false].
Proof.
  rewrite (run_rate_counts_trailing_window
             (mkConfig None None None 25 None None 2 10) "tok" ∅).
  - reflexivity.
  - cbn. lia.
  - reflexivity.
  - repeat constructor; vm_compute; congruence.
Defined.

(** X2. Under the same conditions the sequence kept for the key after a
    call at [now] is exactly the hits so far that are not older than
    [now - WINDOW], in the order they came: nothing older stays, nothing
    newer is lost. *)
Theorem run_rate_keeps_trailing_window (cfg : Config) (token : string)
    (counters : gmap string (list Q)) (times : list Q) (now : Q) :
  0 <= RATE_LIMIT_WINDOW cfg ->
  counters !! token = None ->
  Sorted Qle (times ++ [now]) ->
  fst (run_rate cfg token (times ++ [now]) counters) !! token
  = Some (List.filter
            (fun t => Qle_bool (now - inject_Z (RATE_LIMIT_WINDOW cfg)) t)
            (times ++ [now])).
Proof.
  intros Hw Hfresh Hs. apply sorted_ssorted in Hs.
  set (W := inject_Z (RATE_LIMIT_WINDOW cfg)).
  assert (HW : (0 <= W)%Q) by (subst W; unfold Qle, inject_Z; cbn; lia).
  destruct (ssorted_app_inv _ _ Hs) as (Ht & _ & Hle).
  pose proof (run_rate_sorted cfg token times [] counters
                (match times with
                 | t :: _ => t - W
                 | [] => now - W
                 end)%Q Hw) as H.
  cbn [app] in H. destruct H as [_ H].
  - exact Ht.
  - rewrite Hfresh. reflexivity.
  - destruct times; [exact I | subst W; lra].
  - rewrite run_rate_app. cbn [fst run_rate].
    rewrite record_and_check_rate_unfold. cbv zeta. cbn [fst].
    rewrite lookup_insert_eq. f_equal.
    rewrite H. fold W.
    rewrite (trim_filtered _ (now - W) times); [|  | exact Ht].
    + rewrite List.filter_app. cbn [List.filter].
      assert (Qle_bool (now - W) now = true) as ->
        by (apply Qle_bool_iff; lra).
      reflexivity.
    + clear H. destruct times as [|t0 times]; [cbn; lra|].
      assert (Hlast : forall l ws,
                 Forall (fun a => (a <= now)%Q) l -> (ws <= now - W)%Q ->
                 (fold_left (fun _ t => t - W) l ws <= now - W)%Q).
      { induction l as [|a l IHl]; intros ws Hl Hws0; cbn; [exact Hws0|].
        apply Forall_inv in Hl as Ha. apply Forall_inv_tail in Hl.
        apply IHl; [exact Hl | lra]. }
      apply Hlast.
      * eapply Forall_impl; [|exact Hle]. cbv beta. intros a Ha.
        apply Forall_inv in Ha. exact Ha.
      * apply Forall_inv in Hle. apply Forall_inv in Hle. lra.
Qed.

Lemma run_rate_keeps_trailing_window_witness :
  fst (run_rate (mkConfig None None None 25 None None 2 10) "tok"
                ([inject_Z 0; inject_Z 1; inject_Z 2] ++ [inject_Z 11]) ∅)
      !! "tok"
  = Some [inject_Z 1; inject_Z 2; inject_Z 11].
Proof.
  rewrite (run_rate_keeps_trailing_window
             (mkConfig None None None 25 None None 2 10) "tok" ∅).
  - reflexivity.
  - cbn. lia.
  - reflexivity.
  - repeat constructor; vm_compute; congruence.
Defined.

(** X3. The limiter is per key: a call for one token leaves the
    sequence of every other token alone, and calls for two different
    tokens give the same decisions and the same final state in either
    order. *)
Theorem record_and_check_rate_keys_independent (cfg : Config)
    (a b : string) (now_a now_b : Q) (counters : gmap string (list Q)) :
  a <> b ->
  fst (record_and_check_rate cfg now_a a counters) !! b = counters !! b
  /\ snd (record_and_check_rate cfg now_b b
            (fst (record_and_check_rate cfg now_a a counters)))
     = snd (record_and_check_rate cfg now_b b counters)
  /\ fst (record_and_check_rate cfg now_b b
            (fst (record_and_check_rate cfg now_a a counters)))
     = fst (record_and_check_rate cfg now_a a
              (fst (record_and_check_rate cfg now_b b counters))).
Proof.
  intro Hab. rewrite !record_and_check_rate_unfold. cbv zeta. cbn [fst snd].
  rewrite !lookup_insert_ne by congruence.
  repeat split. apply insert_insert_ne. congruence.
Qed.

Lemma record_and_check_rate_keys_independent_witness :
  fst (record_and_check_rate default_config 5 "a" ∅) !! "b"
  = (∅ : gmap string (list Q)) !! "b"
  /\ snd (record_and_check_rate default_config 7 "b"
            (fst (record_and_check_rate default_config 5 "a" ∅)))
     = snd (record_and_check_rate default_config 7 "b" ∅)
  /\ fst (record_and_check_rate default_config 7 "b"
            (fst (record_and_check_rate default_config 5 "a" ∅)))
     = fst (record_and_check_rate default_config 5 "a"
              (fst (record_and_check_rate default_config 7 "b" ∅))).
Proof.
  apply (record_and_check_rate_keys_independent default_config "a" "b").
  discriminate.
Defined.

End RateWindow.

(** ** Which strings the private-range test accepts *)

Section CanonicalQuad.

Import Ipaddress App.

Lemma join_split sep s : Py.join sep (Py.split sep s) = s.
Proof.
  induction s as [|c r IH]; [reflexivity|]. cbn [Py.split].
  destruct (Py.ascii_eqb c sep) eqn:E.
  - apply Ascii.eqb_eq in E. subst c.
    destruct (Py.split sep r) as [|h t] eqn:Es;
      [exfalso; eapply split_not_nil, Es|].
    rewrite <- IH. reflexivity.
  - destruct (Py.split sep r) as [|h t] eqn:Es;
      [exfalso; eapply split_not_nil, Es|].
    rewrite <- IH. destruct t as [|h' t']; reflexivity.
Qed.

Lemma digit_char c :
  Py.is_decimal_digit c = true ->
  exists d, 0 <= d <= 9 /\ Py.ord c = 48 + d
            /\ c = ascii_of_N (Z.to_N (48 + d)).
Proof.
  unfold Py.is_decimal_digit. cbv zeta.
  rewrite andb_true_iff, !Z.leb_le. intros [H1 H2].
  exists (Py.ord c - 48). split; [lia|]. split; [lia|].
  replace (48 + (Py.ord c - 48)) with (Py.ord c) by lia.
  unfold Py.ord. rewrite N2Z.id, ascii_N_embedding. reflexivity.
Qed.

Lemma digit_zero d :
  0 <= d <= 9 ->
  Py.ascii_eqb (ascii_of_N (Z.to_N (48 + d))) "0" = (d =? 0).
Proof.
  intro H.
  assert (d = 0 \/ d = 1 \/ d = 2 \/ d = 3 \/ d = 4 \/ d = 5 \/ d = 6
          \/ d = 7 \/ d = 8 \/ d = 9) as Hd by lia.
  repeat (destruct Hd as [-> | Hd]; [reflexivity|]). subst. reflexivity.
Qed.

(** An accepted octet is the decimal spelling of its value. *)
Lemma v4_parse_octet_canonical o v :
  v4_parse_octet o = Some v -> o = str_byte v.
Proof.
  unfold v4_parse_octet.
  destruct (Py.is_empty o) eqn:Ee; [discriminate|].
  destruct (forallb Py.is_decimal_digit (Py.chars o)) eqn:Hd; [|discriminate].
  cbn [negb].
  destruct (3 <? Py.str_len o) eqn:Hl; [discriminate|].
  apply Z.ltb_ge in Hl. unfold Py.str_len in Hl.
  destruct o as [|c1 [|c2 [|c3 [|c4 r]]]]; cbn [String.length] in Hl;
    [discriminate Ee | | | | lia];
    cbn [Py.chars forallb] in Hd.
  - (* one digit *)
    apply andb_true_iff in Hd as [H1 _].
    apply digit_char in H1 as (d1 & Hr1 & Ho1 & ->).
    unfold Py.int10; cbn [Py.chars fold_left]. rewrite Ho1.
    destruct (_ && _); [discriminate|].
    destruct (255 <? _); [discriminate|]. intro H. injection H as <-.
    unfold str_byte.
    destruct (10 * 0 + (48 + d1 - 48) <? 10) eqn:E;
      [|apply Z.ltb_ge in E; lia].
    do 2 f_equal. f_equal. lia.
  - (* two digits *)
    apply andb_true_iff in Hd as [H1 Hd].
    apply andb_true_iff in Hd as [H2 _].
    apply digit_char in H1 as (d1 & Hr1 & Ho1 & ->).
    apply digit_char in H2 as (d2 & Hr2 & Ho2 & ->).
    unfold Py.int10; cbn [Py.chars fold_left]. rewrite Ho1, Ho2.
    rewrite digit_zero by lia.
    destruct (d1 =? 0) eqn:E0.
    + match goal with
      | |- context [String.eqb ?x "0"] =>
          assert (String.eqb x "0" = false) as ->
            by (apply String.eqb_neq; discriminate)
      end.
      cbn. discriminate.
    + rewrite andb_false_r. apply Z.eqb_neq in E0.
      destruct (255 <? _); [discriminate|]. intro H. injection H as <-.
      unfold str_byte.
      set (n := 10 * (10 * 0 + (48 + d1 - 48)) + (48 + d2 - 48)).
      assert (Hn : n = 10 * d1 + d2) by (subst n; lia).
      destruct (n <? 10) eqn:E1; [apply Z.ltb_lt in E1; lia|].
      destruct (n <? 100) eqn:E2; [|apply Z.ltb_ge in E2; lia].
      assert (n / 10 = d1) as -> by (Z.div_mod_to_equations; lia).
      assert (n mod 10 = d2) as -> by (Z.div_mod_to_equations; lia).
      reflexivity.
  - (* three digits *)
    apply andb_true_iff in Hd as [H1 Hd].
    apply andb_true_iff in Hd as [H2 Hd].
    apply andb_true_iff in Hd as [H3 _].
    apply digit_char in H1 as (d1 & Hr1 & Ho1 & ->).
    apply digit_char in H2 as (d2 & Hr2 & Ho2 & ->).
    apply digit_char in H3 as (d3 & Hr3 & Ho3 & ->).
    unfold Py.int10; cbn [Py.chars fold_left]. rewrite Ho1, Ho2, Ho3.
    rewrite digit_zero by lia.
    destruct (d1 =? 0) eqn:E0.
    + match goal with
      | |- context [String.eqb ?x "0"] =>
          assert (String.eqb x "0" = false) as ->
            by (apply String.eqb_neq; discriminate)
      end.
      cbn. discriminate.
    + rewrite andb_false_r. apply Z.eqb_neq in E0.
      destruct (255 <? _); [discriminate|]. intro H. injection H as <-.
      unfold str_byte.
      set (n := 10 * (10 * (10 * 0 + (48 + d1 - 48)) + (48 + d2 - 48))
                + (48 + d3 - 48)).
      assert (Hn : n = 100 * d1 + 10 * d2 + d3) by (subst n; lia).
      destruct (n <? 10) eqn:E1; [apply Z.ltb_lt in E1; lia|].
      destruct (n <? 100) eqn:E2; [apply Z.ltb_lt in E2; lia|].
      assert (n / 100 = d1) as -> by (Z.div_mod_to_equations; lia).
      assert ((n / 10) mod 10 = d2) as -> by (Z.div_mod_to_equations; lia).
      assert (n mod 10 = d3) as -> by (Z.div_mod_to_equations; lia).
      reflexivity.
Qed.

(** A string accepted as a version 4 address is the canonical dotted
    quad of the integer it denotes. *)
Lemma IPv4Address_canonical s n :
  IPv4Address s = Some n ->
  exists a b c d,
    (0 <= a <= 255) /\ (0 <= b <= 255) /\ (0 <= c <= 255)
    /\ (0 <= d <= 255) /\ n = quad a b c d /\ s = dotted a b c d.
Proof.
  unfold IPv4Address, v4_ip_int_from_string.
  destruct (Py.contains "/" s); [discriminate|].
  destruct (Py.is_empty s); [discriminate|].
  pose proof (join_split "." s) as Hj.
  destruct (Py.split "." s) as [|o1 [|o2 [|o3 [|o4 [|o5 r]]]]];
    try discriminate.
  cbn [List.length Nat.eqb negb from_octets].
  destruct (v4_parse_octet o1) as [a|] eqn:E1; [|discriminate].
  destruct (v4_parse_octet o2) as [b|] eqn:E2; [|discriminate].
  destruct (v4_parse_octet o3) as [c|] eqn:E3; [|discriminate].
  destruct (v4_parse_octet o4) as [d|] eqn:E4; [|discriminate].
  intro H. injection H as <-. exists a, b, c, d.
  repeat split; try (eapply v4_parse_octet_range; eassumption).
  - unfold quad. lia.
  - rewrite <- Hj.
    rewrite (v4_parse_octet_canonical _ _ E1), (v4_parse_octet_canonical _ _ E2),
      (v4_parse_octet_canonical _ _ E3), (v4_parse_octet_canonical _ _ E4).
    reflexivity.
Qed.

(** X4. [is_private_ip_str] is true exactly on the canonical dotted-quad
    spellings of the addresses of the five blocks: four decimal octets
    without sign, padding or leading zero, joined by dots.  No other
    spelling of such an address (a host name, one integer, hexadecimal
    or octal octets, surrounding blanks) is accepted. *)
Theorem is_private_ip_str_canonical_only (s : string) :
  is_private_ip_str s = true
  <-> exists a b c d : Z,
        (0 <= a <= 255) /\ (0 <= b <= 255) /\ (0 <= c <= 255)
        /\ (0 <= d <= 255) /\ s = dotted a b c d
        /\ in_private_block (quad a b c d).
Proof.
  rewrite is_private_ip_str_iff. split.
  - intros (n & Hn & Hb).
    destruct (IPv4Address_canonical s n Hn) as (a & b & c & d & H).
    exists a, b, c, d. destruct H as (Ha & Hb' & Hc & Hd & -> & ->). auto 10.
  - intros (a & b & c & d & Ha & Hb & Hc & Hd & -> & Hblock).
    exists (quad a b c d). split; [|exact Hblock].
    apply ip_address_v4_inv, dotted_parses; assumption.
Qed.

End CanonicalQuad.

(** ** What the handler stores *)

Section Pipeline.

Import Ipaddress App.

(** The state and response of [canary] after a successful commit, in
    full. *)
Lemma canary_commit_ok_exact cfg env request token st :
  db_commit env = Ok tt ->
  exists h : option string,
    canary cfg env request token st
    = (let rc := record_and_check_rate cfg (time_time env) token
                                       (rate_counters st) in
       let t := query_token token (tokens st) in
       let ev :=
         mkEvent token (utcnow_insert env) (req_method request)
           (req_full_path request) (headers_dict (req_headers request))
           (take 2000 (body_preview_of request))
           (derive_remote_addr request) h
           ((if host_suspicious request then true
             else addr_suspicious (derive_remote_addr request))
            || negb (snd rc))
           (mkRaw (req_method request) (req_path request) (req_args request)
              (headers_dict (req_headers request)) (body_preview_of request)
              (derive_remote_addr request) (utcnow env)) in
       (mkState (fst rc) (tokens st) (events st ++ [ev])
          (alerts st
           ++ [mkPayload token
                 (match t with Some _ => true | None => false end)
                 (match t with Some tk => tk_owner tk | None => None end)
                 (ev_timestamp ev) (ev_method ev) (ev_path ev)
                 (ev_remote_addr ev) (ev_remote_host ev) (ev_suspicious ev)
                 (ev_headers ev) (ev_body_preview ev) (snd rc)]),
        Ok ("OK", 200))).
Proof.
  intro Hc. unfold canary.
  destruct (record_and_check_rate cfg (time_time env) token (rate_counters st))
    as [counters ok_rate].
  assert (Hh : exists h,
             (if truthy (derive_remote_addr request)
              then enrich_remote_host env (derive_remote_addr request)
              else Ok None) = Ok h).
  { destruct (truthy (derive_remote_addr request)); [|eauto].
    apply enrich_remote_host_total. }
  destruct Hh as [h Hh]. exists h. rewrite Hh, Hc. reflexivity.
Qed.

Lemma str_byte_no_colon a :
  0 <= a <= 255 -> Py.contains ":" (str_byte a) = false.
Proof.
  intro Ha.
  assert (H : forallb (fun k => negb (Py.contains ":" (str_byte (Z.of_nat k))))
                      (seq 0 256) = true) by (vm_compute; reflexivity).
  rewrite forallb_forall in H. specialize (H (Z.to_nat a)).
  rewrite Z2Nat.id in H by lia. apply negb_true_iff, H, in_seq. lia.
Qed.

Lemma dotted_no_colon a b c d :
  0 <= a <= 255 -> 0 <= b <= 255 -> 0 <= c <= 255 -> 0 <= d <= 255 ->
  Py.contains ":" (dotted a b c d) = false.
Proof.
  intros Ha Hb Hc Hd. unfold dotted.
  change ("." ++ str_byte b ++ "." ++ str_byte c ++ "." ++ str_byte d)%string
    with (String "." (str_byte b ++ String "." (str_byte c
                        ++ String "." (str_byte d))))%string.
  rewrite !contains_append, !contains_cons, !contains_append, !contains_cons,
    !contains_append, !contains_cons, !str_byte_no_colon by assumption.
  reflexivity.
Qed.

(** X5. The range test reaches the [Host] header with the port cut off:
    when the header is the dotted quad of a private-block address, alone
    or followed by a colon and anything, the stored Event is suspicious
    whatever the client address and the limiter say. *)
Theorem host_private_quad_flagged (cfg : Config) (env : Env)
    (request : Request) (token : string) (st : State)
    (a b c d : Z) (h : string) :
  0 <= a <= 255 -> 0 <= b <= 255 -> 0 <= c <= 255 -> 0 <= d <= 255 ->
  in_private_block (quad a b c d) ->
  h = dotted a b c d
  \/ (exists port, h = (dotted a b c d ++ String ":" port)%string) ->
  headers_get "Host" (req_headers request) = Some h ->
  db_commit env = Ok tt ->
  exists ev : Event,
    events (fst (canary cfg env request token st)) = events st ++ [ev]
    /\ ev_suspicious ev = true.
Proof.
  intros Ha Hb Hc Hd Hblock Hh Hhost Hcommit.
  assert (Hhd : List.hd EmptyString (Py.split ":" h) = dotted a b c d).
  { pose proof (dotted_no_colon a b c d Ha Hb Hc Hd) as Hn.
    destruct Hh as [-> | [port ->]].
    - rewrite (split_no_sep _ _ Hn). reflexivity.
    - rewrite (split_app_sep _ _ _ Hn). reflexivity. }
  assert (Hs : host_suspicious request = true).
  { apply (host_header_private_flagged request h (quad a b c d) Hhost);
      [|exact Hblock].
    rewrite Hhd. apply ip_address_v4_inv, dotted_parses; assumption. }
  destruct (canary_commit_ok_exact cfg env request token st Hcommit)
    as [hst ->].
  cbv zeta. cbn [fst events]. eexists. split; [reflexivity|].
  cbn [ev_suspicious]. rewrite Hs. reflexivity.
Qed.

Lemma host_private_quad_flagged_witness :
  exists ev : Event,
    events (fst (canary default_config (sample_env 0)
                        (sample_request "GET" [("Host", "192.168.1.1:8443")])
                        "tok" empty_state))
    = events empty_state ++ [ev]
    /\ ev_suspicious ev = true.
Proof.
  apply (host_private_quad_flagged default_config (sample_env 0)
           (sample_request "GET" [("Host", "192.168.1.1:8443")]) "tok"
           empty_state 192 168 1 1 "192.168.1.1:8443"); try lia.
  - right; right; left. unfold in_cidr. vm_compute. split; congruence.
  - right. exists "8443". reflexivity.
  - reflexivity.
  - reflexivity.
Defined.

Lemma serve_canary_step cfg env request token st :
  let st' := fst (serve_canary cfg env request token st) in
  let resp := snd (serve_canary cfg env request token st) in
  tokens st' = tokens st
  /\ ((snd resp = 200
       /\ exists ev p,
            events st' = events st ++ [ev] /\ alerts st' = alerts st ++ [p]
            /\ ev_token ev = token
            /\ p_token p = ev_token ev
            /\ p_timestamp p = ev_timestamp ev
            /\ p_method p = ev_method ev
            /\ p_path p = ev_path ev
            /\ p_remote_addr p = ev_remote_addr ev
            /\ p_remote_host p = ev_remote_host ev
            /\ p_suspicious p = ev_suspicious ev
            /\ p_headers p = ev_headers ev
            /\ p_body_preview p = ev_body_preview ev)
      \/ (snd resp <> 200 /\ events st' = events st
          /\ alerts st' = alerts st)).
Proof.
  cbv zeta. unfold serve_canary.
  destruct (existsb _ canary_methods).
  - destruct (unit_result_cases (db_commit env)) as [Hc | [e Hc]].
    + destruct (canary_commit_ok_exact cfg env request token st Hc) as [h ->].
      cbv zeta. cbn. split; [reflexivity|]. left. split; [reflexivity|].
      eexists. eexists. repeat split.
    + rewrite (canary_commit_fail cfg env request token st e Hc). cbn.
      split; [reflexivity|]. right. repeat split. discriminate.
  - cbn. split; [reflexivity|]. right. repeat split. discriminate.
Qed.

(** X6. Whatever requests arrive, with whatever methods and commit
    outcomes, the handler never touches the token table, only appends
    to the Events, and hands over exactly one alert payload per stored
    Event, in the same order and with the Event's own token, time,
    method, path, address, host name, flag, headers and preview; the
    Events stored are as many as the answers with status 200. *)
Theorem serve_many_appends_in_step (cfg : Config)
    (reqs : list (Env * Request * string)) (st : State) :
  let st' := fst (serve_many cfg reqs st) in
  tokens st' = tokens st
  /\ exists (evs : list Event) (ps : list Payload),
       events st' = events st ++ evs
       /\ alerts st' = alerts st ++ ps
       /\ Forall2
            (fun ev p =>
               p_token p = ev_token ev
               /\ p_timestamp p = ev_timestamp ev
               /\ p_method p = ev_method ev
               /\ p_path p = ev_path ev
               /\ p_remote_addr p = ev_remote_addr ev
               /\ p_remote_host p = ev_remote_host ev
               /\ p_suspicious p = ev_suspicious ev
               /\ p_headers p = ev_headers ev
               /\ p_body_preview p = ev_body_preview ev)
            evs ps
       /\ List.length evs
          = List.length
              (List.filter (fun resp => snd resp =? 200)
                           (snd (serve_many cfg reqs st))).
Proof.
  cbv zeta. revert st.
  induction reqs as [|[[env r] token] rest IH]; intro st.
  - cbn. split; [reflexivity|]. exists [], []. rewrite !app_nil_r.
    repeat split. constructor.
  - cbn [serve_many].
    pose proof (serve_canary_step cfg env r token st) as Hstep.
    cbv zeta in Hstep.
    destruct (serve_canary cfg env r token st) as [st1 resp].
    specialize (IH st1).
    destruct (serve_many cfg rest st1) as [st2 resps].
    cbn [fst snd] in *.
    destruct Hstep as [Ht Hstep].
    destruct IH as (IHt & evs & ps & He & Hp & Hf & Hl).
    split; [congruence|].
    destruct Hstep as [[Hok (ev & p & He1 & Hp1 & _ & Hm)] | (Hno & He1 & Hp1)].
    + exists (ev :: evs), (p :: ps).
      rewrite He, Hp, He1, Hp1, <- !app_assoc.
      split; [reflexivity|]. split; [reflexivity|].
      split; [constructor; [tauto | exact Hf]|].
      cbn [List.filter]. rewrite Hok. cbn. rewrite Hl. reflexivity.
    + exists evs, ps. rewrite He, Hp, He1, Hp1.
      split; [reflexivity|]. split; [reflexivity|]. split; [exact Hf|].
      cbn [List.filter]. apply Z.eqb_neq in Hno. rewrite Hno. exact Hl.
Qed.

(** X7. A hit whose commit fails is not stored and raises no alert, yet
    it has been counted: the limiter is left as after a stored hit, with
    the clock reading at the end of the token's sequence, where it
    weighs on the hits that follow. *)
Theorem failed_commit_still_counts (cfg : Config) (env : Env)
    (request : Request) (token : string) (st : State) (e : exn) :
  In (req_method request) canary_methods ->
  db_commit env = Raise e ->
  let st' := fst (serve_canary cfg env request token st) in
  snd (serve_canary cfg env request token st)
  = (on_the_wire (req_method request) (BodyErrorPage 500), 500)
  /\ events st' = events st
  /\ alerts st' = alerts st
  /\ rate_counters st'
     = fst (record_and_check_rate cfg (time_time env) token
                                  (rate_counters st))
  /\ exists kept : list Q,
       rate_counters st' !! token = Some (kept ++ [time_time env]).
Proof.
  intros Hm Hc. cbv zeta. unfold serve_canary.
  apply method_listed in Hm. rewrite Hm.
  rewrite (canary_commit_fail cfg env request token st e Hc).
  cbn [fst snd events alerts rate_counters].
  repeat split.
  rewrite record_and_check_rate_unfold. cbv zeta. cbn [fst].
  eexists. apply lookup_insert_eq.
Qed.

Lemma failed_commit_still_counts_witness :
  let env := mkEnv 3%Q 3%Q 3%Q (fun _ => Raise (Exception "herror"))
                   (Raise (Exception "OperationalError")) in
  let st' := fst (serve_canary default_config env (sample_request "GET" [])
                               "tok" empty_state) in
  snd (serve_canary default_config env (sample_request "GET" []) "tok"
                    empty_state)
  = (on_the_wire (req_method (sample_request "GET" [])) (BodyErrorPage 500),
     500)
  /\ events st' = events empty_state
  /\ alerts st' = alerts empty_state
  /\ rate_counters st'
     = fst (record_and_check_rate default_config (time_time env) "tok"
                                  (rate_counters empty_state))
  /\ exists kept : list Q,
       rate_counters st' !! "tok" = Some (kept ++ [time_time env]).
Proof.
  intro env.
  apply (failed_commit_still_counts default_config env
           (sample_request "GET" []) "tok" empty_state
           (Exception "OperationalError")).
  - cbn. tauto.
  - reflexivity.
Defined.

(** X8. When the X-Forwarded-For header gives a first entry that is not
    blank, the peer address of the connection plays no part: with any
    other peer the handler returns the same response and the same state,
    so the same Event, flag and alert. *)
Theorem forwarded_for_overrides_peer (cfg : Config) (env : Env)
    (request : Request) (token : string) (st : State) (x : string)
    (peer : option string) :
  headers_get "X-Forwarded-For" (req_headers request) = Some x ->
  Py.strip (List.hd EmptyString (Py.split "," x)) <> EmptyString ->
  canary cfg env
         (mkRequest (req_method request) (req_path request)
                    (req_full_path request) (req_args request)
                    (req_headers request) (req_get_data request) peer)
         token st
  = canary cfg env request token st.
Proof.
  intros Hx Hne.
  assert (Hd : forall r, req_headers r = req_headers request ->
                         derive_remote_addr r
                         = Some (Py.strip (List.hd EmptyString (Py.split "," x)))).
  { intros r Hr. unfold derive_remote_addr. rewrite Hr, Hx.
    destruct x as [|c x']; [exfalso; apply Hne; reflexivity|].
    cbn [Py.is_empty].
    destruct (Py.strip _) as [|c' t'] eqn:Et; [congruence|]. reflexivity. }
  unfold canary, host_suspicious, host_part_of, body_preview_of.
  rewrite (Hd request eq_refl), (Hd (mkRequest _ _ _ _ _ _ peer) eq_refl).
  reflexivity.
Qed.

Lemma forwarded_for_overrides_peer_witness :
  let request :=
    mkRequest "GET" "/c/tok" "/c/tok?" []
              [("X-Forwarded-For", "8.8.8.8")] (Ok []) (Some "10.0.0.1") in
  canary default_config (sample_env 0)
         (mkRequest (req_method request) (req_path request)
                    (req_full_path request) (req_args request)
                    (req_headers request) (req_get_data request)
                    (Some "127.0.0.1"))
         "tok" empty_state
  = canary default_config (sample_env 0) request "tok" empty_state.
Proof.
  intro request.
  apply (forwarded_for_overrides_peer default_config (sample_env 0) request
           "tok" empty_state "8.8.8.8").
  - reflexivity.
  - vm_compute. discriminate.
Defined.

End Pipeline.

(** ** What the preview holds *)

Section Preview.

Import Utf8 App.

Lemma decode_from_app_skip pre rest : forall skip,
  skip = List.length pre ->
  decode_from skip (pre ++ rest) = decode_from 0 rest.
Proof.
  induction pre as [|b pre IH]; intros skip ->; [reflexivity|].
  cbn [app List.length decode_from]. apply IH. reflexivity.
Qed.

Lemma decode_encode cps :
  Forall (fun cp => is_scalar_value cp = true) cps ->
  decode_from 0 (encode cps) = cps.
Proof.
  induction 1 as [|cp cps Hcp _ IH]; [reflexivity|].
  unfold encode in *. cbn [flat_map].
  rewrite (decode_encode_one cp _ Hcp), IH. reflexivity.
Qed.

(** X9. A body made of bytes below 128 is stored as it is, up to its
    first 2000 bytes. *)
Theorem ascii_body_stored_verbatim (cfg : Config) (env : Env)
    (request : Request) (token : string) (st : State) (data : list byte) :
  req_get_data request = Ok data ->
  Forall (fun b => byte_val b < 128) data ->
  db_commit env = Ok tt ->
  exists ev : Event,
    events (fst (canary cfg env request token st)) = events st ++ [ev]
    /\ ev_body_preview ev
       = map (fun b => Z.to_N (byte_val b)) (take 2000 data).
Proof.
  intros Hd Ha Hc.
  destruct (canary_commit_ok_exact cfg env request token st Hc) as [h ->].
  cbv zeta. cbn [fst events]. eexists. split; [reflexivity|].
  cbn [ev_body_preview]. rewrite body_preview_of_data, Hd.
  unfold decode_replace. rewrite decode_from_ascii.
  - rewrite List.map_map, <- !fmap_take, take_take.
    replace (2000 `min` 4096)%nat with 2000%nat by reflexivity.
    reflexivity.
  - apply List.Forall_map. apply Forall_take.
    eapply Forall_impl; [|exact Ha]. cbv beta. intros b Hb.
    split; [|exact Hb]. unfold byte_val. lia.
Qed.

Lemma ascii_body_stored_verbatim_witness :
  exists ev : Event,
    events (fst (canary default_config (sample_env 0)
                        (mkRequest "POST" "/c/tok" "/c/tok?" [] []
                                   (Ok ["h"%byte; "i"%byte]) (Some "8.8.8.8"))
                        "tok" empty_state))
    = events empty_state ++ [ev]
    /\ ev_body_preview ev
       = map (fun b => Z.to_N (byte_val b)) (take 2000 ["h"%byte; "i"%byte]).
Proof.
  apply (ascii_body_stored_verbatim default_config (sample_env 0) _ "tok"
           empty_state ["h"%byte; "i"%byte]).
  - reflexivity.
  - repeat constructor.
  - reflexivity.
Defined.

(** X10. A body of at most 4096 bytes that is the UTF-8 encoding of a
    text comes back as that text: the raw snapshot holds its scalar
    values, and the stored preview its first 2000. *)
Theorem utf8_body_round_trip (cfg : Config) (env : Env)
    (request : Request) (token : string) (st : State) (data : list byte)
    (text : list N) :
  req_get_data request = Ok data ->
  (List.length data <= 4096)%nat ->
  Forall (fun cp => is_scalar_value cp = true) text ->
  map byte_val data = encode text ->
  db_commit env = Ok tt ->
  exists ev : Event,
    events (fst (canary cfg env request token st)) = events st ++ [ev]
    /\ raw_body_preview (ev_raw ev) = text
    /\ ev_body_preview ev = take 2000 text.
Proof.
  intros Hd Hl Ht He Hc.
  destruct (canary_commit_ok_exact cfg env request token st Hc) as [h ->].
  cbv zeta. cbn [fst events]. eexists. split; [reflexivity|].
  cbn [ev_body_preview ev_raw raw_body_preview].
  rewrite body_preview_of_data, Hd, take_ge by exact Hl.
  unfold decode_replace. rewrite He, (decode_encode text Ht). auto.
Qed.

Lemma utf8_body_round_trip_witness :
  exists ev : Event,
    events (fst (canary default_config (sample_env 0)
                        (mkRequest "POST" "/c/tok" "/c/tok?" [] []
                                   (Ok [xe2; x82; xac; x41]%byte)
                                   (Some "8.8.8.8"))
                        "tok" empty_state))
    = events empty_state ++ [ev]
    /\ raw_body_preview (ev_raw ev) = [8364; 65]%N
    /\ ev_body_preview ev = take 2000 [8364; 65]%N.
Proof.
  apply (utf8_body_round_trip default_config (sample_env 0) _ "tok"
           empty_state [xe2; x82; xac; x41]%byte [8364; 65]%N).
  - reflexivity.
  - cbn. lia.
  - repeat constructor.
  - reflexivity.
  - reflexivity.
Defined.

(** X11. The raw snapshot never holds more characters than the 4096
    bytes read, and the stored preview is its first 2000 characters,
    whatever the body. *)
Theorem raw_preview_bounded (cfg : Config) (env : Env)
    (request : Request) (token : string) (st : State) :
  db_commit env = Ok tt ->
  exists ev : Event,
    events (fst (canary cfg env request token st)) = events st ++ [ev]
    /\ (List.length (raw_body_preview (ev_raw ev)) <= 4096)%nat
    /\ ev_body_preview ev = take 2000 (raw_body_preview (ev_raw ev))
    /\ (forall data, req_get_data request = Ok data ->
                     (List.length (raw_body_preview (ev_raw ev))
                      <= List.length data)%nat).
Proof.
  intro Hc.
  destruct (canary_commit_ok_exact cfg env request token st Hc) as [h ->].
  cbv zeta. cbn [fst events]. eexists. split; [reflexivity|].
  cbn [ev_body_preview ev_raw raw_body_preview].
  rewrite body_preview_of_data.
  destruct (req_get_data request) as [data|e].
  - unfold decode_replace.
    pose proof (decode_from_length (map byte_val (take 4096 data)) 0) as Hl.
    rewrite length_map, length_take in Hl.
    split; [lia|]. split; [reflexivity|].
    intros data' Hd. injection Hd as <-. lia.
  - cbn. split; [lia|]. split; [reflexivity|]. discriminate.
Qed.

Lemma raw_preview_bounded_witness :
  exists ev : Event,
    events (fst (canary default_config (sample_env 0)
                        (sample_request "GET" []) "tok" empty_state))
    = events empty_state ++ [ev]
    /\ (List.length (raw_body_preview (ev_raw ev)) <= 4096)%nat
    /\ ev_body_preview ev = take 2000 (raw_body_preview (ev_raw ev))
    /\ (forall data, req_get_data (sample_request "GET" []) = Ok data ->
                     (List.length (raw_body_preview (ev_raw ev))
                      <= List.length data)%nat).
Proof.
  apply (raw_preview_bounded default_config (sample_env 0)
                             (sample_request "GET" []) "tok" empty_state).
  reflexivity.
Defined.

End Preview.

(** ** Token administration *)

Section TokenAdmin.

Import App.

Lemma query_deactivate_same token tbl :
  query_token token (deactivate_first token tbl)
  = match query_token token tbl with
    | Some t =>
        Some (mkToken (tk_token t) (tk_owner t) (tk_created_at t)
                      (tk_expires_at t) false (tk_meta t))
    | None => None
    end.
Proof.
  unfold query_token. induction tbl as [|t rest IH]; [reflexivity|].
  cbn [deactivate_first List.find].
  destruct (String.eqb (tk_token t) token) eqn:E.
  - cbn [List.find tk_token]. rewrite E. reflexivity.
  - cbn [List.find]. rewrite E. exact IH.
Qed.

Lemma query_deactivate_other token token' tbl :
  token' <> token ->
  query_token token' (deactivate_first token tbl) = query_token token' tbl.
Proof.
  intro Hne. unfold query_token. induction tbl as [|t rest IH]; [reflexivity|].
  cbn [deactivate_first List.find].
  destruct (String.eqb (tk_token t) token) eqn:E.
  - cbn [List.find tk_token]. apply String.eqb_eq in E.
    assert (String.eqb (tk_token t) token' = false) as ->
      by (apply String.eqb_neq; congruence).
    reflexivity.
  - cbn [List.find]. rewrite IH. reflexivity.
Qed.

Lemma deactivate_first_twice token tbl :
  deactivate_first token (deactivate_first token tbl)
  = deactivate_first token tbl.
Proof.
  induction tbl as [|t rest IH]; [reflexivity|].
  cbn [deactivate_first].
  destruct (String.eqb (tk_token t) token) eqn:E.
  - cbn [deactivate_first tk_token]. rewrite E. reflexivity.
  - cbn [deactivate_first]. rewrite E, IH. reflexivity.
Qed.

Lemma deactivate_first_length token tbl :
  List.length (deactivate_first token tbl) = List.length tbl.
Proof.
  induction tbl as [|t rest IH]; [reflexivity|].
  cbn [deactivate_first]. destruct (String.eqb (tk_token t) token);
    cbn [List.length]; [reflexivity | rewrite IH; reflexivity].
Qed.

(** X12. [deactivate_token] answers 404 for an unknown token and
    changes nothing.  For a known one whose commit succeeds it answers
    200 and clears the active flag of the row the lookup returns, and
    only that: the row keeps its owner, dates and metadata, the lookup of
    every other token is as before, no row is added or removed, Events,
    alerts and rate counters are untouched, and doing it again changes
    nothing more. *)
Theorem deactivate_token_effect (env : Env) (token : string) (st : State) :
  (query_token token (tokens st) = None ->
   deactivate_token env token st = (st, 404))
  /\ (forall t : Token,
        query_token token (tokens st) = Some t ->
        db_commit env = Ok tt ->
        let st' := fst (deactivate_token env token st) in
        snd (deactivate_token env token st) = 200
        /\ query_token token (tokens st')
           = Some (mkToken (tk_token t) (tk_owner t) (tk_created_at t)
                           (tk_expires_at t) false (tk_meta t))
        /\ (forall token', token' <> token ->
                           query_token token' (tokens st')
                           = query_token token' (tokens st))
        /\ List.length (tokens st') = List.length (tokens st)
        /\ events st' = events st
        /\ alerts st' = alerts st
        /\ rate_counters st' = rate_counters st
        /\ deactivate_token env token st' = (st', 200)).
Proof.
  unfold deactivate_token. split.
  - intros ->. reflexivity.
  - intros t Ht Hc. rewrite Ht, Hc. cbn [fst snd tokens events alerts
                                         rate_counters].
    rewrite query_deactivate_same, Ht, deactivate_first_twice.
    repeat split.
    + intros token' Hne. apply query_deactivate_other, Hne.
    + apply deactivate_first_length.
Qed.

Lemma deactivate_token_effect_witness :
  let st :=
    mkState ∅ [mkToken "aa" None 0%Q None true None;
               mkToken "bb" (Some "ops") 0%Q None true None] [] [] in
  let st' := fst (deactivate_token (sample_env 0) "bb" st) in
  snd (deactivate_token (sample_env 0) "bb" st) = 200
  /\ query_token "bb" (tokens st')
     = Some (mkToken "bb" (Some "ops") 0%Q None false None)
  /\ (forall token', token' <> "bb" ->
                     query_token token' (tokens st')
                     = query_token token' (tokens st))
  /\ List.length (tokens st') = List.length (tokens st)
  /\ events st' = events st
  /\ alerts st' = alerts st
  /\ rate_counters st' = rate_counters st
  /\ deactivate_token (sample_env 0) "bb" st' = (st', 200).
Proof.
  intro st.
  apply (proj2 (deactivate_token_effect (sample_env 0) "bb" st)
               (mkToken "bb" (Some "ops") 0%Q None true None));
    reflexivity.
Defined.

(** X13. Deactivating a token changes nothing in how a hit is handled:
    after [deactivate_token], whatever its outcome and whichever token it
    named, [canary] gives the same response, stores the same Event,
    hands over the same alert payload ([token_exists] and [token_owner]
    included) and leaves the same rate counters as before it. *)
Theorem deactivation_is_inert_for_hits (cfg : Config) (env env_d : Env)
    (request : Request) (token token_d : string) (st : State) :
  let st_d := fst (deactivate_token env_d token_d st) in
  snd (canary cfg env request token st_d)
  = snd (canary cfg env request token st)
  /\ events (fst (canary cfg env request token st_d))
     = events (fst (canary cfg env request token st))
  /\ alerts (fst (canary cfg env request token st_d))
     = alerts (fst (canary cfg env request token st))
  /\ rate_counters (fst (canary cfg env request token st_d))
     = rate_counters (fst (canary cfg env request token st)).
Proof.
  cbv zeta. unfold deactivate_token.
  destruct (query_token token_d (tokens st)) as [td|] eqn:Hq; [|auto].
  destruct (db_commit env_d) as [u|e]; [|auto].
  cbn [fst]. unfold canary. cbn [rate_counters tokens events alerts].
  assert (Hview :
            (match query_token token (deactivate_first token_d (tokens st)) with
             | Some _ => true | None => false end)
            = (match query_token token (tokens st) with
               | Some _ => true | None => false end)
            /\ (match query_token token
                        (deactivate_first token_d (tokens st)) with
                | Some tk => tk_owner tk | None => None end)
               = (match query_token token (tokens st) with
                  | Some tk => tk_owner tk | None => None end)).
  { destruct (String.eqb token token_d) eqn:E.
    - apply String.eqb_eq in E. subst token_d.
      rewrite query_deactivate_same, Hq. auto.
    - apply String.eqb_neq in E.
      rewrite (query_deactivate_other token_d token _ E). auto. }
  destruct Hview as [Hex How].
  destruct (record_and_check_rate cfg (time_time env) token (rate_counters st))
    as [counters ok_rate].
  match goal with
  | |- context [match ?x with Ok _ => _ | Raise _ => _ end] => destruct x
  end; cbn [fst snd events alerts rate_counters]; [|auto].
  rewrite Hex, How. auto.
Qed.

(** X14. [gen_token] returns a value that is not in the table whenever
    one of its first five draws is not, namely the first such draw; when
    all five are taken it returns the sixth draw without looking it up. *)
Theorem gen_token_fresh_within_five (uuid_hex : nat -> string)
    (tbl : list Token) :
  (forall i : nat,
     (i < 5)%nat ->
     query_token (uuid_hex i) tbl = None ->
     (forall j : nat, (j < i)%nat -> query_token (uuid_hex j) tbl <> None) ->
     gen_token uuid_hex tbl = uuid_hex i
     /\ query_token (gen_token uuid_hex tbl) tbl = None)
  /\ ((forall i : nat, (i < 5)%nat -> query_token (uuid_hex i) tbl <> None) ->
      gen_token uuid_hex tbl = uuid_hex 5%nat).
Proof.
  unfold gen_token. cbn [gen_token_loop]. split.
  - intros i Hi Hfree Hprev.
    assert (E : gen_token_loop 5 uuid_hex 0 tbl = uuid_hex i).
    { cbn [gen_token_loop].
      destruct i as [|[|[|[|[|i]]]]]; [| | | | |lia];
        repeat match goal with
               | |- context [query_token (uuid_hex ?k) tbl] =>
                   first
                     [ rewrite Hfree
                     | let H := fresh in
                       destruct (query_token (uuid_hex k) tbl) eqn:H;
                       [|exfalso; apply (Hprev k); [lia | exact H]] ]
               end; reflexivity. }
    cbn [gen_token_loop] in E. rewrite E. auto.
  - intro Hall.
    repeat match goal with
           | |- context [query_token (uuid_hex ?k) tbl] =>
               let H := fresh in
               destruct (query_token (uuid_hex k) tbl) eqn:H;
               [|exfalso; apply (Hall k); [lia | exact H]]
           end.
    reflexivity.
Qed.

Lemma gen_token_fresh_within_five_witness :
  let tbl := [mkToken "u0" None 0%Q None true None;
              mkToken "u1" None 0%Q None true None] in
  let uuid_hex := fun i : nat =>
                    match i with
                    | O => "u0" | 1%nat => "u1" | _ => "u2"
                    end in
  gen_token uuid_hex tbl = uuid_hex 2%nat
  /\ query_token (gen_token uuid_hex tbl) tbl = None.
Proof.
  intros tbl uuid_hex.
  apply (proj1 (gen_token_fresh_within_five uuid_hex tbl) 2%nat).
  - lia.
  - reflexivity.
  - intros j Hj. destruct j as [|[|j]]; [discriminate | discriminate | lia].
Defined.

End TokenAdmin.

(** ** A limit below one *)

Section LimitBelowOne.

Import App.

(** X15. The hit being checked is itself counted, so with
    [RATE_LIMIT_MAX] at zero or below the limiter denies every hit, the
    first one for a token included, and every stored Event is
    suspicious. *)
Theorem nonpositive_max_denies_every_hit (cfg : Config) (env : Env)
    (request : Request) (token : string) (st : State) :
  RATE_LIMIT_MAX cfg <= 0 ->
  (forall (now : Q) (counters : gmap string (list Q)),
     snd (record_and_check_rate cfg now token counters) = false)
  /\ (db_commit env = Ok tt ->
      exists ev : Event,
        events (fst (canary cfg env request token st)) = events st ++ [ev]
        /\ ev_suspicious ev = true).
Proof.
  intro Hmax.
  assert (Hdeny : forall now counters,
             snd (record_and_check_rate cfg now token counters) = false).
  { intros now counters. rewrite record_and_check_rate_unfold. cbv zeta.
    cbn [snd]. apply Z.leb_gt. rewrite length_app. cbn [List.length]. lia. }
  split; [exact Hdeny|]. intro Hc.
  destruct (canary_commit_ok_exact cfg env request token st Hc) as [h ->].
  cbv zeta. cbn [fst events]. eexists. split; [reflexivity|].
  cbn [ev_suspicious]. rewrite Hdeny. apply orb_true_r.
Qed.

Lemma nonpositive_max_denies_every_hit_witness :
  let cfg := mkConfig None None None 25 None None 0 60 in
  (forall (now : Q) (counters : gmap string (list Q)),
     snd (record_and_check_rate cfg now "tok" counters) = false)
  /\ (db_commit (sample_env 0) = Ok tt ->
      exists ev : Event,
        events (fst (canary cfg (sample_env 0) (sample_request "GET" [])
                            "tok" empty_state))
        = events empty_state ++ [ev]
        /\ ev_suspicious ev = true).
Proof.
  intro cfg.
  apply (nonpositive_max_denies_every_hit cfg (sample_env 0)
           (sample_request "GET" []) "tok" empty_state).
  cbn. lia.
Defined.

End LimitBelowOne.
